(** * pyMemeLabeler: a shallow embedding of [main.py]

    The program renames the image files of a directory after the text an
    OCR engine reads in them.  This development embeds the [ImageRenamer]
    class and [main] of [main.py] and proves properties of file discovery,
    of name sanitization, of unique-name allocation and of the per-file
    error handling.

    Python values are modelled as follows.
    - A [str] is a list of Unicode code points ([N]).
    - An [int] is a [Z]; the disambiguation counter, which only grows
      from 0, is an [N].
    - A [set] of strings is a [gset].
    - The Unicode tables behind [\s], [\w], [str.strip] and [str.lower]
      are not part of the program: they are the operations of the class
      [UnicodeData], and a theorem lists the facts about them it needs.
    - Exceptions, the logger, the registry of names and the renames
      performed are threaded through a small state-and-exception monad. *)

From Stdlib Require Import ZArith NArith List Ascii String Lia Decimal DecimalN.
From stdpp Require Import base gmap sets list.

Local Open Scope Z_scope.

(** ** Python strings *)

Abbreviation char := N (only parsing).
Abbreviation str := (list N) (only parsing).

(** [py "abc"] is the Python literal ["abc"] (ASCII literals only). *)
Definition py (s : string) : str := map N_of_ascii (list_ascii_of_string s).

Definition underscore : char := 95%N.
Definition newline : char := 10%N.
Definition space : char := 32%N.
Definition dot : char := 46%N.
Definition slash : char := 47%N.

Definition len (s : str) : Z := Z.of_nat (length s).

(** The character tables of the interpreter. *)
Class UnicodeData := {
  (** [Py_UNICODE_ISSPACE]: [str.isspace], the class [\s], [str.strip] *)
  isspace : char -> bool;
  (** [Py_UNICODE_ISALNUM]: [str.isalnum]; with ['_'] it makes [\w] *)
  isalnum : char -> bool;
  (** [str.lower] *)
  lower : str -> str
}.

Definition in_range (lo hi c : char) : bool := ((lo <=? c) && (c <=? hi))%N.

(** The class [[a-zA-Z0-9]]. *)
Definition ascii_alnum (c : char) : bool :=
  in_range 97 122 c || in_range 65 90 c || in_range 48 57 c.

Definition is_underscore (c : char) : bool := (c =? underscore)%N.

Module PyStr.

(** [s[:k]] for an [int] [k]; a negative [k] counts from the end. *)
Definition slice_to (s : str) (k : Z) : str :=
  if k <? 0 then take (Z.to_nat (len s + k)) s else take (Z.to_nat k) s.

(** [s[k:]] for [0 <= k]. *)
Definition slice_from (s : str) (k : Z) : str := drop (Z.to_nat k) s.

Fixpoint drop_while (p : char -> bool) (s : str) : str :=
  match s with
  | [] => []
  | c :: s' => if p c then drop_while p s' else s
  end.

Definition lstrip (p : char -> bool) (s : str) : str := drop_while p s.
Definition rstrip (p : char -> bool) (s : str) : str := rev (drop_while p (rev s)).

(** [s.strip()] *)
Definition strip `{UnicodeData} (s : str) : str := rstrip isspace (lstrip isspace s).

(** [s.replace(old, new)] for a one-character [old]. *)
Definition replace (old : char) (new : str) (s : str) : str :=
  flat_map (fun c => if (c =? old)%N then new else [c]) s.

(** [s.startswith(c)] for a one-character [c]. *)
Definition startswith (c : char) (s : str) : bool :=
  match s with
  | [] => false
  | d :: _ => (d =? c)%N
  end.

(** [s.rfind(c)]: the index of the last [c] in [s], or [-1]. *)
Fixpoint rfind_from (c : char) (s : str) (i : Z) (found : Z) : Z :=
  match s with
  | [] => found
  | d :: s' => rfind_from c s' (i + 1) (if (d =? c)%N then i else found)
  end.
Definition rfind (c : char) (s : str) : Z := rfind_from c s 0 (-1).

(** The characters ['0'] to ['9'] of a decimal numeral. *)
Fixpoint uint_digits (d : Decimal.uint) : str :=
  match d with
  | Decimal.Nil => []
  | Decimal.D0 d => 48%N :: uint_digits d
  | Decimal.D1 d => 49%N :: uint_digits d
  | Decimal.D2 d => 50%N :: uint_digits d
  | Decimal.D3 d => 51%N :: uint_digits d
  | Decimal.D4 d => 52%N :: uint_digits d
  | Decimal.D5 d => 53%N :: uint_digits d
  | Decimal.D6 d => 54%N :: uint_digits d
  | Decimal.D7 d => 55%N :: uint_digits d
  | Decimal.D8 d => 56%N :: uint_digits d
  | Decimal.D9 d => 57%N :: uint_digits d
  end.

(** [str(n)] for a non-negative [int]. *)
Definition str_of_int (n : N) : str := uint_digits (N.to_uint n).

End PyStr.

(** ** The three shapes of [re.sub] the program uses *)

Module PyRe.

(** [re.sub("[C]", repl, text)]: every character of the class is a match. *)
Definition sub_class (cls : char -> bool) (repl : str) (text : str) : str :=
  flat_map (fun c => if cls c then repl else [c]) text.

(** [re.sub("[C]+", repl, text)]: every maximal run of the class is one
    match.  [in_match] tells that the previous character was in a run. *)
Fixpoint sub_plus_from (cls : char -> bool) (repl : str) (in_match : bool)
    (text : str) : str :=
  match text with
  | [] => []
  | c :: text' =>
      if cls c then
        if in_match then sub_plus_from cls repl true text'
        else repl ++ sub_plus_from cls repl true text'
      else c :: sub_plus_from cls repl false text'
  end.
Definition sub_plus (cls : char -> bool) (repl : str) (text : str) : str :=
  sub_plus_from cls repl false text.

(** [re.sub("^[C]+", repl, text)] without [re.MULTILINE]: the only
    possible match is the run of the class at the start of the text. *)
Definition sub_start_plus (cls : char -> bool) (repl : str) (text : str) : str :=
  match text with
  | [] => []
  | c :: _ => if cls c then repl ++ PyStr.drop_while cls text else text
  end.

End PyRe.

(** ** [ImageRenamer]: the name sanitizer *)

Definition MAX_FILENAME_LENGTH : Z := 255.

Section Sanitizer.
Context `{UnicodeData}.

(** The class [\w]. *)
Definition is_word (c : char) : bool := isalnum c || is_underscore c.

Definition clean_text_for_filename (text : str) (max_length : Z) : str :=
  let text := PyRe.sub_class (fun c => negb (is_word c || isspace c)) [underscore] text in
  let text := PyStr.replace newline [space] text in
  let text := PyRe.sub_plus isspace [underscore] text in
  let text := PyRe.sub_plus is_underscore [underscore] text in
  let text := PyRe.sub_start_plus (fun c => negb (ascii_alnum c)) [] text in
  PyStr.rstrip is_underscore (PyStr.slice_to text max_length).

End Sanitizer.

(** An instance of the tables that agrees with CPython on the ASCII code
    points; it is used to run the program on ASCII inputs. *)
Definition ascii_isspace (c : char) : bool := in_range 9 13 c || in_range 28 32 c.
Definition ascii_lower_char (c : char) : char := if in_range 65 90 c then (c + 32)%N else c.
Definition ascii_data : UnicodeData :=
  {| isspace := ascii_isspace; isalnum := ascii_alnum; lower := map ascii_lower_char |}.

(** ** [pathlib]: pure paths of the POSIX flavour *)

Module PyPath.

(** A path is its anchor ([""] or ["/"]) and its components. *)
Record Path := mkPath { anchor : str; parts : list str }.

(** [s.split(sep)] for a one-character separator. *)
Fixpoint split (sep : char) (s : str) : list str :=
  match s with
  | [] => [[]]
  | c :: s' =>
      if (c =? sep)%N then [] :: split sep s'
      else match split sep s' with
           | [] => [[c]]
           | w :: ws => (c :: w) :: ws
           end
  end.

(** The components of a path string: empty components and ["."] are
    dropped. *)
Definition is_component (w : str) : bool :=
  negb (bool_decide (w = [])) && negb (bool_decide (w = [dot])).
Definition parse_parts (s : str) : list str := List.filter is_component (split slash s).

(** [Path(s)] *)
Definition of_str (s : str) : Path :=
  {| anchor := if PyStr.startswith slash s then [slash] else []; parts := parse_parts s |}.

(** [p / key]: an absolute [key] replaces [p]. *)
Definition truediv (p : Path) (key : str) : Path :=
  if PyStr.startswith slash key then of_str key
  else {| anchor := anchor p; parts := parts p ++ parse_parts key |}.

(** [p.name] *)
Definition name (p : Path) : str := List.last (parts p) [].

(** [p.parent] *)
Definition parent (p : Path) : Path :=
  {| anchor := anchor p; parts := removelast (parts p) |}.

(** [p.suffix]: from the last dot of the name on, unless that dot is the
    first or the last character of the name. *)
Definition suffix (p : Path) : str :=
  let name := name p in
  let i := PyStr.rfind dot name in
  if (0 <? i) && (i <? len name - 1) then PyStr.slice_from name i else [].

(** [p.stem]: the name without its suffix. *)
Definition stem (p : Path) : str :=
  let name := name p in
  let i := PyStr.rfind dot name in
  if (0 <? i) && (i <? len name - 1) then PyStr.slice_to name i else name.

End PyPath.
Import PyPath.

(** What the program asks the file system while it lists a directory. *)
Record FileSystem := {
  iterdir : Path -> list Path;
  is_file : Path -> bool
}.

(** ** [ImageFile] and [ImageRenamer]: discovery *)

Record ImageFile := mkImageFile {
  path : Path;
  original_name : str;
  extension : str
}.

Record ImageRenamer := mkImageRenamer {
  directory : Path;
  skip_existing : bool;
  verbose : bool
}.

(** [ImageRenamer(directory, skip_existing=True, verbose=False)] *)
Definition ImageRenamer_init (directory : str) (skip_existing : option bool)
    (verbose : option bool) : ImageRenamer :=
  {| directory := of_str directory;
     skip_existing := default true skip_existing;
     verbose := default false verbose |}.

Definition VALID_EXTENSIONS : gset str :=
  {[ py ".jpg"; py ".jpeg"; py ".png"; py ".gif"; py ".PNG"; py "JPG" ]}.

Section Discovery.
Context `{UnicodeData}.
Variable fs : FileSystem.

Definition _is_valid_image_file (self : ImageRenamer) (file_path : Path) : bool :=
  if negb (is_file fs file_path) then false
  else if skip_existing self && PyStr.startswith underscore (stem file_path) then false
  else bool_decide (lower (suffix file_path) ∈ VALID_EXTENSIONS).

Definition get_image_files (self : ImageRenamer) : list ImageFile :=
  flat_map
    (fun file_path =>
       if negb (_is_valid_image_file self file_path) then []
       else [ {| path := file_path;
                 original_name := stem file_path;
                 extension := lower (suffix file_path) |} ])
    (iterdir fs (directory self)).

End Discovery.

(** ** [argparse] and [main] *)

Record Namespace := mkNamespace {
  ns_directory : option str;
  ns_skip_existing : bool;
  ns_verbose : bool
}.

(** The parser [main] builds: one positional [directory] and two
    [store_true] options, [--process-all] with [dest="skip_existing"] and
    [--verbose].  A [store_true] option is [False] unless it is given.
    [None] is a usage error. *)
Fixpoint parse_args_from (argv : list str) (ns : Namespace) : option Namespace :=
  match argv with
  | [] => match ns_directory ns with
          | None => None
          | Some _ => Some ns
          end
  | a :: argv' =>
      if bool_decide (a = py "--process-all") then
        parse_args_from argv' {| ns_directory := ns_directory ns;
                                 ns_skip_existing := true;
                                 ns_verbose := ns_verbose ns |}
      else if bool_decide (a = py "--verbose") then
        parse_args_from argv' {| ns_directory := ns_directory ns;
                                 ns_skip_existing := ns_skip_existing ns;
                                 ns_verbose := true |}
      else if PyStr.startswith 45%N a then None
      else match ns_directory ns with
           | Some _ => None
           | None =>
               parse_args_from argv' {| ns_directory := Some a;
                                        ns_skip_existing := ns_skip_existing ns;
                                        ns_verbose := ns_verbose ns |}
           end
  end.

Definition parse_args (argv : list str) : option Namespace :=
  parse_args_from argv
    {| ns_directory := None; ns_skip_existing := false; ns_verbose := false |}.

(** The renamer [main] constructs from the command line. *)
Definition main_renamer (argv : list str) : option ImageRenamer :=
  match parse_args argv with
  | None => None
  | Some args =>
      match ns_directory args with
      | None => None
      | Some d =>
          Some (ImageRenamer_init d (Some (ns_skip_existing args)) (Some (ns_verbose args)))
      end
  end.

(** The files [main] discovers: the first step of [process_directory]. *)
Definition main_discovered `{UnicodeData} (fs : FileSystem) (argv : list str)
    : option (list ImageFile) :=
  match main_renamer argv with
  | None => None
  | Some renamer => Some (get_image_files fs renamer)
  end.

(** ** Exceptions, the logger and the shared registry *)

(** A raised exception: whether it is an instance of [Exception] (an
    error, which [except Exception] catches) or only of [BaseException]
    (such as [KeyboardInterrupt]), and its message. *)
Record exn := mkExn { is_Exception : bool; exn_message : str }.

(** The calls to [logging.error] and [logging.info]. *)
Inductive LogRecord :=
| ErrorExtracting (image_path : Path) (e : exn)
| ErrorProcessing (image_path : Path) (e : exn)
| InfoRenamed (original_name new_name : str).

(** What the program reaches outside itself while it processes one file:
    [Image.open], [pytesseract.image_to_string] and [Path.rename]; each
    returns or raises. *)
Record World := {
  Image : Type;
  Image_open : Path -> exn + Image;
  image_to_string : Image -> exn + str;
  Path_rename : Path -> Path -> exn + unit
}.

(** The mutable state: the set [existing_names] every task shares, the
    log, and the renames the file system performed, oldest first. *)
Record State := mkState {
  existing_names : gset str;
  log : list LogRecord;
  renamed : list (Path * Path)
}.

Inductive outcome (A : Type) :=
| Returns (a : A)
| Raises (e : exn)
| OutOfFuel.
Arguments Returns {A} a.
Arguments Raises {A} e.
Arguments OutOfFuel {A}.

Definition M (A : Type) : Type := State -> outcome A * State.

Definition ret {A} (a : A) : M A := fun st => (Returns a, st).

Definition bind {A B} (m : M A) (k : A -> M B) : M B :=
  fun st =>
    match m st with
    | (Returns a, st') => k a st'
    | (Raises e, st') => (Raises e, st')
    | (OutOfFuel, st') => (OutOfFuel, st')
    end.

Notation "x <- m ;; k" := (bind m (fun x => k))
  (at level 100, m at next level, right associativity).
Notation "m ;;; k" := (bind m (fun _ => k))
  (at level 100, right associativity).

Definition raise {A} (e : exn) : M A := fun st => (Raises e, st).

(** [try: body except Exception as e: handler(e)] *)
Definition try_except {A} (body : M A) (handler : exn -> M A) : M A :=
  fun st =>
    match body st with
    | (Raises e, st') => if is_Exception e then handler e st' else (Raises e, st')
    | r => r
    end.

(** A call that returns or raises. *)
Definition call {A} (r : exn + A) : M A :=
  match r with
  | inl e => raise e
  | inr a => ret a
  end.

Definition logging (r : LogRecord) : M unit :=
  fun st => (Returns tt, {| existing_names := existing_names st;
                            log := log st ++ [r];
                            renamed := renamed st |}).

Definition get_existing_names : M (gset str) := fun st => (Returns (existing_names st), st).

(** [existing_names.add(new_name)] *)
Definition existing_names_add (new_name : str) : M unit :=
  fun st => (Returns tt, {| existing_names := existing_names st ∪ {[ new_name ]};
                            log := log st;
                            renamed := renamed st |}).

(** ** [ImageRenamer]: extraction, allocation and renaming *)

(** The loop of [generate_unique_filename], entered at its test with the
    current [counter] and [new_name]; [fuel] bounds the number of times
    the body runs. *)
Fixpoint generate_unique_filename_loop (fuel : nat) (base_name extension : str)
    (existing_names : gset str) (counter : N) (new_name : str) : option str :=
  if bool_decide (new_name ∈ existing_names) then
    match fuel with
    | O => None
    | S fuel' =>
        let counter := (counter + 1)%N in
        let truncated_base :=
          PyStr.slice_to base_name
            (MAX_FILENAME_LENGTH - len (PyStr.str_of_int counter) - len extension - 2) in
        let new_name :=
          [underscore] ++ truncated_base ++ [underscore]
            ++ PyStr.str_of_int counter ++ extension in
        generate_unique_filename_loop fuel' base_name extension existing_names
          counter new_name
    end
  else Some new_name.

Definition generate_unique_filename (fuel : nat) (base_name extension : str)
    (existing_names : gset str) : option str :=
  let counter := 0%N in
  let new_name := [underscore] ++ base_name ++ extension in
  generate_unique_filename_loop fuel base_name extension existing_names counter new_name.

Section Processing.
Context `{UnicodeData}.
Variable world : World.

(** [Path.rename]: the file system performs the rename or raises. *)
Definition rename (src dst : Path) : M unit :=
  fun st =>
    match Path_rename world src dst with
    | inl e => (Raises e, st)
    | inr _ => (Returns tt, {| existing_names := existing_names st;
                               log := log st;
                               renamed := renamed st ++ [(src, dst)] |})
    end.

Definition extract_text_from_image (image_path : Path) : M (option str) :=
  try_except
    (img <- call (Image_open world image_path) ;;
     text <- call (image_to_string world img) ;;
     ret (match text with
          | [] => None
          | _ :: _ => Some (PyStr.strip text)
          end))
    (fun e => logging (ErrorExtracting image_path e) ;;; ret None).

(** [not text] for an [Optional[str]]: it holds of [None] and of [""]. *)
Definition not_text (text : option str) : bool :=
  match text with
  | None => true
  | Some [] => true
  | Some (_ :: _) => false
  end.

Definition process_image (fuel : nat) (image_file : ImageFile) : M unit :=
  try_except
    (text <- extract_text_from_image (path image_file) ;;
     names <- get_existing_names ;;
     let base_name :=
       if not_text text then
         py "meme_" ++ PyStr.str_of_int (N.of_nat (size names))
       else
         clean_text_for_filename (default [] text)
           (MAX_FILENAME_LENGTH - len (extension image_file) - 2) in
     match generate_unique_filename fuel base_name (extension image_file) names with
     | None => fun st => (OutOfFuel, st)
     | Some new_name =>
         let new_path := truediv (parent (path image_file)) new_name in
         rename (path image_file) new_path ;;;
         existing_names_add new_name ;;;
         logging (InfoRenamed (original_name image_file) new_name)
     end)
    (fun e => logging (ErrorProcessing (path image_file) e)).

End Processing.

(** ** The vocabulary of the properties *)

(** The text has two underscores in a row. *)
Definition has_repeated_underscore (s : str) : Prop :=
  ∃ u v, s = u ++ [underscore; underscore] ++ v.

(** No character of the text is a whitespace character. *)
Definition no_whitespace `{UnicodeData} (s : str) : Prop :=
  Forall (fun c => isspace c = false) s.

Fixpoint no_repeat (s : str) : bool :=
  match s with
  | [] => true
  | c :: s' => negb (is_underscore c && PyStr.startswith underscore s') && no_repeat s'
  end.

(** The text after the first four substitutions of
    [clean_text_for_filename]. *)
Definition collapsed `{UnicodeData} (text : str) : str :=
  PyRe.sub_plus is_underscore [underscore]
    (PyRe.sub_plus isspace [underscore]
       (PyStr.replace newline [space]
          (PyRe.sub_class (fun c => negb (is_word c || isspace c)) [underscore] text))).

(** The name the loop of [generate_unique_filename] tries for a value of
    the counter. *)
Definition candidate (base_name extension : str) (counter : N) : str :=
  [underscore]
    ++ PyStr.slice_to base_name
         (MAX_FILENAME_LENGTH - len (PyStr.str_of_int counter) - len extension - 2)
    ++ [underscore] ++ PyStr.str_of_int counter ++ extension.

(** The extensions the discoverer recognizes. *)
Definition recognized : list str := [py ".jpg"; py ".jpeg"; py ".png"; py ".gif"].

(** [str.lower] never produces one of the letters [A] to [Z]. *)
Definition lower_is_lowercase `{UnicodeData} : Prop :=
  ∀ s, Forall (fun c => in_range 65 90 c = false) (lower s).

(** What opening the image and reading its text give. *)
Definition ocr_outcome (w : World) (image_path : Path) : exn + str :=
  match Image_open w image_path with
  | inl e => inl e
  | inr img => image_to_string w img
  end.

(** Every exception the world raises is an error: an instance of
    [Exception]. *)
Definition raises_only_errors (w : World) : Prop :=
  (∀ p e, Image_open w p = inl e → is_Exception e = true) ∧
  (∀ img e, image_to_string w img = inl e → is_Exception e = true) ∧
  (∀ src dst e, Path_rename w src dst = inl e → is_Exception e = true).

(** [s] is [t] without its leading and trailing whitespace. *)
Definition trimmed_of `{UnicodeData} (s t : str) : Prop :=
  ∃ l r, t = l ++ s ++ r ∧
         Forall (fun c => isspace c = true) l ∧
         Forall (fun c => isspace c = true) r ∧
         (∀ c s', s = c :: s' → isspace c = false) ∧
         (∀ s' c, s = s' ++ [c] → isspace c = false).

(** The base name [process_image] chooses for an extracted text. *)
Definition chosen_base_name `{UnicodeData} (text : option str) (names : gset str)
    (extension : str) : str :=
  if not_text text then py "meme_" ++ PyStr.str_of_int (N.of_nat (size names))
  else clean_text_for_filename (default [] text) (MAX_FILENAME_LENGTH - len extension - 2).

Definition log_append (st : State) (r : LogRecord) : State :=
  {| existing_names := existing_names st; log := log st ++ [r]; renamed := renamed st |}.

(** [str.lower] does not turn a string without [/] into one with it. *)
Definition lower_keeps_slash_out `{UnicodeData} : Prop :=
  ∀ s, slash ∉ s → slash ∉ lower s.

(** ** Worlds, directories and registries to run the program on *)

(** A directory holding one regular file. *)
Definition one_file_dir (file_name : str) : FileSystem :=
  {| iterdir := fun d => [truediv d file_name]; is_file := fun _ => true |}.

(** A world where no image can be opened and no file renamed; what it
    raises are errors. *)
Definition failing_world : World :=
  {| Image := unit;
     Image_open := fun _ => inl (mkExn true (py "cannot identify image file"));
     image_to_string := fun _ => inr [];
     Path_rename := fun _ _ => inl (mkExn true (py "Permission denied")) |}.

(** A world where the OCR engine reads [ocr_text] in every image; renaming
    succeeds when [can_rename] is set and fails with an error otherwise. *)
Definition reading_world (ocr_text : str) (can_rename : bool) : World :=
  {| Image := unit;
     Image_open := fun _ => inr tt;
     image_to_string := fun _ => inr ocr_text;
     Path_rename := fun _ _ =>
       if can_rename then inr tt else inl (mkExn true (py "Permission denied")) |}.

(** A registry seeded with two names. *)
Definition two_names : State :=
  {| existing_names := {[ py "photo.png"; py "scan.PNG" ]}; log := []; renamed := [] |}.

(** The world [w] with an OCR engine that reads [ocr_text] in every image. *)
Definition with_ocr_text (w : World) (ocr_text : str) : World :=
  {| Image := Image w;
     Image_open := Image_open w;
     image_to_string := fun _ => inr ocr_text;
     Path_rename := Path_rename w |}.

(** A world where opening an image is interrupted from the keyboard:
    [KeyboardInterrupt] is not an instance of [Exception]. *)
Definition interrupted_world : World :=
  {| Image := unit;
     Image_open := fun _ => inl (mkExn false (py "KeyboardInterrupt"));
     image_to_string := fun _ => inr [];
     Path_rename := fun _ _ => inr tt |}.

(** A world where no image can be opened, which is an error, and every
    rename succeeds. *)
Definition unreadable_world : World :=
  {| Image := unit;
     Image_open := fun _ => inl (mkExn true (py "cannot identify image file"));
     image_to_string := fun _ => inr [];
     Path_rename := fun _ _ => inr tt |}.

(** ** The registry and the tasks of [process_directory] *)




(** * Properties *)

(** ** Strings *)

Module PyStrFacts.
Import PyStr.

Lemma len_nonneg (s : str) : 0 <= len s.
Proof. unfold len; lia. Qed.

Lemma drop_while_suffix p (s : str) : ∃ u, s = u ++ drop_while p s ∧ Forall (fun c => p c = true) u.
Proof.
  induction s as [|c s IH]; simpl.
  - by exists [].
  - destruct (p c) eqn:E.
    + destruct IH as (u & Hu & HF). exists (c :: u). split.
      * simpl. by rewrite <- Hu.
      * by constructor.
    + by exists [].
Qed.

Lemma drop_while_head p (s : str) c s' : drop_while p s = c :: s' → p c = false.
Proof.
  induction s as [|d s IH]; simpl; [done|].
  destruct (p d) eqn:E; [done|]. intros [= -> _]. done.
Qed.

Lemma drop_while_id p (s : str) :
  match s with [] => True | c :: _ => p c = false end → drop_while p s = s.
Proof. destruct s as [|c s]; simpl; [done|]. by intros ->. Qed.

Lemma drop_while_all p (s : str) : Forall (fun c => p c = true) s → drop_while p s = [].
Proof. induction 1 as [|c s Hc _ IH]; simpl; [done|]. by rewrite Hc. Qed.

Lemma rstrip_prefix p (s : str) : ∃ u, s = rstrip p s ++ u ∧ Forall (fun c => p c = true) u.
Proof.
  unfold rstrip. destruct (drop_while_suffix p (rev s)) as (u & Hu & HF).
  exists (rev u). split.
  - rewrite <- rev_app_distr, <- Hu. by rewrite rev_involutive.
  - by apply Forall_rev.
Qed.

Lemma rstrip_last p (s : str) u c : rstrip p s = u ++ [c] → p c = false.
Proof.
  unfold rstrip. intros E.
  assert (E' : drop_while p (rev s) = c :: rev u).
  { rewrite <- (rev_involutive (drop_while p (rev s))), E, rev_app_distr. done. }
  by apply drop_while_head in E'.
Qed.

Lemma rstrip_idemp p (s : str) : rstrip p (rstrip p s) = rstrip p s.
Proof.
  unfold rstrip. rewrite rev_involutive. f_equal.
  apply drop_while_id. destruct (drop_while p (rev s)) eqn:E; [done|].
  by apply drop_while_head in E.
Qed.

Lemma slice_to_prefix (s : str) k : ∃ u, s = slice_to s k ++ u.
Proof.
  unfold slice_to. destruct (k <? 0); eexists; symmetry; apply take_drop.
Qed.

Lemma slice_to_len (s : str) k : 0 <= k → len (slice_to s k) <= k.
Proof.
  intros Hk. unfold slice_to, len. destruct (Z.ltb_spec k 0); [lia|].
  rewrite length_take. lia.
Qed.

Lemma slice_to_all (s : str) k : len s <= k → slice_to s k = s.
Proof.
  intros Hk. unfold slice_to. pose proof (len_nonneg s).
  destruct (Z.ltb_spec k 0); [lia|]. apply take_ge. unfold len in *. lia.
Qed.

Lemma elem_of_replace old new (s : str) c :
  c ∈ replace old new s → c ∈ new ∨ (c ∈ s ∧ c ≠ old).
Proof.
  unfold replace. induction s as [|d s IH]; simpl.
  - by intros ?%elem_of_nil.
  - rewrite elem_of_app. intros [Hc|Hc].
    + destruct (N.eqb_spec d old) as [->|Hne]; [by left|].
      apply list_elem_of_singleton in Hc as ->. right. split; [left|done].
    + destruct (IH Hc) as [?|[? ?]]; [by left|]. right. split; [by right|done].
Qed.

Lemma replace_id old new (s : str) : old ∉ s → replace old new s = s.
Proof.
  unfold replace. induction s as [|d s IH]; simpl; [done|].
  intros Hn. apply not_elem_of_cons in Hn as [Hd Hs].
  destruct (N.eqb_spec d old) as [->|_]; [done|]. simpl. f_equal. by apply IH.
Qed.

Lemma uint_digits_inj d d' : uint_digits d = uint_digits d' → d = d'.
Proof.
  revert d'. induction d; intros []; simpl; try discriminate; try done;
    intros [= E]; f_equal; by apply IHd.
Qed.

Lemma uint_digits_range d : Forall (fun c => in_range 48 57 c = true) (uint_digits d).
Proof. induction d; simpl; by constructor. Qed.

Lemma str_of_int_inj n n' : str_of_int n = str_of_int n' → n = n'.
Proof. intros E%uint_digits_inj. by apply DecimalN.Unsigned.to_uint_inj. Qed.

Lemma str_of_int_digits n : Forall (fun c => in_range 48 57 c = true) (str_of_int n).
Proof. apply uint_digits_range. Qed.

End PyStrFacts.

(** ** Regular-expression substitutions *)

Module PyReFacts.
Import PyStr PyRe PyStrFacts.

Lemma is_underscore_true c : is_underscore c = true ↔ c = underscore.
Proof. unfold is_underscore. apply N.eqb_eq. Qed.

Lemma startswith_true c (s : str) : startswith c s = true ↔ ∃ s', s = c :: s'.
Proof.
  destruct s as [|d s]; simpl.
  - split; [done|]. by intros [? ?].
  - rewrite N.eqb_eq. split; [intros ->; eauto|]. by intros [? [= -> _]].
Qed.

Lemma no_repeat_app (a b : str) :
  no_repeat (a ++ b) = true → no_repeat a = true ∧ no_repeat b = true.
Proof.
  induction a as [|c a IH]; simpl; [done|].
  rewrite !andb_true_iff, !negb_true_iff. intros [Hc Hab].
  destruct (IH Hab) as [Ha Hb]. repeat split; [|done..].
  destruct (is_underscore c); [|done]. simpl in *.
  destruct a; [done|]. done.
Qed.

Lemma no_repeat_sound (s : str) : no_repeat s = true → ¬ has_repeated_underscore s.
Proof.
  intros Hs (u & v & ->). apply no_repeat_app in Hs as [_ Hs].
  simpl in Hs. done.
Qed.

Lemma elem_of_sub_class cls repl (t : str) c :
  c ∈ sub_class cls repl t → c ∈ repl ∨ (c ∈ t ∧ cls c = false).
Proof.
  unfold sub_class. induction t as [|d t IH]; simpl.
  - by intros ?%elem_of_nil.
  - rewrite elem_of_app. intros [Hc|Hc].
    + destruct (cls d) eqn:E; [by left|].
      apply list_elem_of_singleton in Hc as ->. right. split; [left|done].
    + destruct (IH Hc) as [?|[? ?]]; [by left|]. right. split; [by right|done].
Qed.

Lemma sub_class_id cls repl (t : str) :
  Forall (fun c => cls c = false) t → sub_class cls repl t = t.
Proof.
  unfold sub_class. induction 1 as [|d t Hd _ IH]; simpl; [done|].
  rewrite Hd. simpl. by f_equal.
Qed.

Lemma elem_of_sub_plus_from cls repl b (t : str) c :
  c ∈ sub_plus_from cls repl b t → c ∈ repl ∨ (c ∈ t ∧ cls c = false).
Proof.
  revert b. induction t as [|d t IH]; intros b; simpl.
  - by intros ?%elem_of_nil.
  - destruct (cls d) eqn:E.
    + destruct b.
      * intros Hc. destruct (IH _ Hc) as [?|[? ?]]; [by left|].
        right. split; [by right|done].
      * rewrite elem_of_app. intros [Hc|Hc]; [by left|].
        destruct (IH _ Hc) as [?|[? ?]]; [by left|]. right. split; [by right|done].
    + intros [->|Hc]%elem_of_cons.
      * right. split; [left|done].
      * destruct (IH _ Hc) as [?|[? ?]]; [by left|]. right. split; [by right|done].
Qed.

Lemma sub_plus_from_id cls repl b (t : str) :
  Forall (fun c => cls c = false) t → sub_plus_from cls repl b t = t.
Proof.
  intros Ht. revert b. induction Ht as [|d t Hd _ IH]; intros b; simpl; [done|].
  rewrite Hd. by f_equal.
Qed.

(** After [re.sub("_+", "_", text)] no underscore is repeated; a text
    entered inside a run of underscores does not start with one. *)
Lemma sub_plus_underscore_no_repeat b (t : str) :
  let r := sub_plus_from is_underscore [underscore] b t in
  no_repeat r = true ∧ (b = true → startswith underscore r = false).
Proof.
  revert b. induction t as [|c t IH]; intros b; simpl; [done|].
  destruct (is_underscore c) eqn:E.
  - destruct b.
    + apply IH.
    + destruct (IH true) as [Hn Hs]. split; [|done]. simpl.
      rewrite Hn, (Hs eq_refl). done.
  - destruct (IH false) as [Hn _]. split.
    + simpl. by rewrite E, Hn.
    + intros _. unfold is_underscore in E. done.
Qed.

Lemma sub_plus_underscore_id b (t : str) :
  no_repeat t = true → (b = true → startswith underscore t = false) →
  sub_plus_from is_underscore [underscore] b t = t.
Proof.
  revert b. induction t as [|c t IH]; intros b; simpl; [done|].
  rewrite andb_true_iff, negb_true_iff. intros [Hc Ht] Hb.
  destruct (is_underscore c) eqn:E.
  - simpl in Hc. destruct b.
    + specialize (Hb eq_refl). unfold is_underscore in E. congruence.
    + apply is_underscore_true in E as ->. simpl. f_equal. by apply IH.
  - f_equal. by apply IH.
Qed.

Lemma sub_start_plus_nil cls (t : str) : sub_start_plus cls [] t = drop_while cls t.
Proof. destruct t as [|c t]; simpl; [done|]. by destruct (cls c). Qed.

End PyReFacts.

(** ** The sanitizer *)

Section SanitizerFacts.
Context `{UnicodeData}.
Import PyStr PyRe PyStrFacts PyReFacts.

Lemma clean_text_unfold (text : str) L :
  clean_text_for_filename text L =
  rstrip is_underscore
    (slice_to (drop_while (fun c => negb (ascii_alnum c)) (collapsed text)) L).
Proof. unfold clean_text_for_filename. by rewrite sub_start_plus_nil. Qed.

Lemma clean_text_infix (text : str) L :
  ∃ u v, collapsed text = u ++ clean_text_for_filename text L ++ v.
Proof.
  rewrite clean_text_unfold.
  set (stripped := drop_while (fun c => negb (ascii_alnum c)) (collapsed text)).
  destruct (drop_while_suffix (fun c => negb (ascii_alnum c)) (collapsed text))
    as (u & Hu & _).
  destruct (slice_to_prefix stripped L) as (v & Hv).
  destruct (rstrip_prefix is_underscore (slice_to stripped L)) as (w & Hw & _).
  exists u, (w ++ v). fold stripped in Hu.
  rewrite Hu. f_equal. rewrite app_assoc.
  etrans; [exact Hv|]. f_equal. exact Hw.
Qed.

Lemma elem_of_collapsed (text : str) c :
  c ∈ collapsed text →
  c = underscore ∨
  (isspace c = false ∧
   (c = space ∨ (c ≠ newline ∧ c ∈ text ∧ is_word c || isspace c = true))).
Proof.
  unfold collapsed, sub_plus.
  intros [Hc|[Hc _]]%elem_of_sub_plus_from;
    [apply list_elem_of_singleton in Hc; by left|].
  apply elem_of_sub_plus_from in Hc as [Hc|[Hc Hsp]];
    [apply list_elem_of_singleton in Hc; by left|].
  apply elem_of_replace in Hc as [Hc|[Hc Hnl]];
    [apply list_elem_of_singleton in Hc; right; by eauto|].
  apply elem_of_sub_class in Hc as [Hc|[Hc Hw]];
    [apply list_elem_of_singleton in Hc; by left|].
  right. split; [done|]. right. repeat split; [done..|].
  by apply negb_false_iff in Hw.
Qed.

Lemma elem_of_clean_text (text : str) L c :
  c ∈ clean_text_for_filename text L →
  c = underscore ∨
  (isspace c = false ∧
   (c = space ∨ (c ≠ newline ∧ c ∈ text ∧ is_word c || isspace c = true))).
Proof.
  intros Hc. apply elem_of_collapsed.
  destruct (clean_text_infix text L) as (u & v & ->).
  rewrite !elem_of_app. auto.
Qed.

Lemma clean_text_no_repeat (text : str) L :
  no_repeat (clean_text_for_filename text L) = true.
Proof.
  destruct (clean_text_infix text L) as (u & v & E).
  assert (Hn : no_repeat (collapsed text) = true).
  { unfold collapsed, sub_plus. apply sub_plus_underscore_no_repeat. }
  rewrite E in Hn. apply no_repeat_app in Hn as [_ Hn].
  by apply no_repeat_app in Hn as [Hn _].
Qed.

Lemma clean_text_len (text : str) L : 0 <= L → len (clean_text_for_filename text L) <= L.
Proof.
  intros HL. rewrite clean_text_unfold.
  set (stripped := drop_while _ _).
  destruct (rstrip_prefix is_underscore (slice_to stripped L)) as (w & Hw & _).
  pose proof (slice_to_len stripped L HL) as Hle.
  rewrite Hw in Hle. unfold len in *. rewrite length_app in Hle. lia.
Qed.

Lemma clean_text_head (text : str) L c r :
  0 <= L → clean_text_for_filename text L = c :: r → ascii_alnum c = true.
Proof.
  intros HL. rewrite clean_text_unfold.
  set (stripped := drop_while _ _). intros E.
  destruct (rstrip_prefix is_underscore (slice_to stripped L)) as (w & Hw & _).
  rewrite E in Hw. unfold slice_to in Hw.
  destruct (Z.ltb_spec L 0); [lia|].
  destruct stripped as [|d s'] eqn:Es.
  - by rewrite take_nil in Hw.
  - destruct (Z.to_nat L); simpl in Hw; [done|]. injection Hw as -> _.
    apply drop_while_head in Es. by apply negb_false_iff in Es.
Qed.

Lemma clean_text_rstrip (text : str) L :
  rstrip is_underscore (clean_text_for_filename text L) = clean_text_for_filename text L.
Proof. unfold clean_text_for_filename. apply rstrip_idemp. Qed.

End SanitizerFacts.

(** C3.  For every text [T] and every length budget [0 <= L], the result
    of [clean_text_for_filename T L] has length at most [L], contains no
    whitespace character and no two consecutive underscores and, when it
    is not empty, begins with a letter or digit of [[a-zA-Z0-9]].  The one
    fact about the whitespace table it rests on is that the underscore is
    not a whitespace character. *)
Theorem clean_text_for_filename_safe `{UnicodeData} (T : str) (L : Z) :
  isspace underscore = false →
  0 <= L →
  len (clean_text_for_filename T L) <= L ∧
  no_whitespace (clean_text_for_filename T L) ∧
  ¬ has_repeated_underscore (clean_text_for_filename T L) ∧
  (clean_text_for_filename T L ≠ [] →
   ∃ c r, clean_text_for_filename T L = c :: r ∧ ascii_alnum c = true).
Proof.
  intros Hus HL. split; [by apply clean_text_len|]. split; [|split].
  - apply Forall_forall. intros c Hc.
    apply elem_of_clean_text in Hc as [->|[Hc _]]; done.
  - apply PyReFacts.no_repeat_sound, clean_text_no_repeat.
  - intros Hne. destruct (clean_text_for_filename T L) as [|c r] eqn:E; [done|].
    exists c, r. split; [done|]. by eapply clean_text_head.
Qed.

Lemma clean_text_for_filename_safe_witness :
  let T := py "  ..Sale 50% off__now!! " in
  @isspace ascii_data underscore = false ∧ 0 <= 7 ∧
  @clean_text_for_filename ascii_data T 7 = py "Sale_50" ∧
  len (@clean_text_for_filename ascii_data T 7) <= 7 ∧
  @no_whitespace ascii_data (@clean_text_for_filename ascii_data T 7) ∧
  ¬ has_repeated_underscore (@clean_text_for_filename ascii_data T 7) ∧
  (@clean_text_for_filename ascii_data T 7 ≠ [] →
   ∃ c r, @clean_text_for_filename ascii_data T 7 = c :: r ∧ ascii_alnum c = true).
Proof.
  intros T. split; [reflexivity|]. split; [lia|]. split; [reflexivity|].
  apply (@clean_text_for_filename_safe ascii_data T 7); [reflexivity|lia].
Defined.

(** C9.  Sanitization is idempotent on its own output: when the result of
    [clean_text_for_filename T L] has length at most [L], sanitizing it
    again with the same budget returns it unchanged.  The facts about the
    whitespace table it rests on are that the underscore is not a
    whitespace character and that the space is one. *)
Theorem clean_text_for_filename_idempotent `{UnicodeData} (T : str) (L : Z) :
  isspace underscore = false →
  isspace space = true →
  len (clean_text_for_filename T L) <= L →
  clean_text_for_filename (clean_text_for_filename T L) L = clean_text_for_filename T L.
Proof.
  intros Hus Hsp HL.
  pose proof (elem_of_clean_text T L) as Hel.
  pose proof (clean_text_no_repeat T L) as Hnr.
  pose proof (clean_text_rstrip T L) as Hrs.
  pose proof (PyStrFacts.len_nonneg (clean_text_for_filename T L)) as H0.
  assert (Hhd : match clean_text_for_filename T L with
                | [] => True
                | c :: _ => negb (ascii_alnum c) = false
                end).
  { destruct (clean_text_for_filename T L) as [|c r] eqn:E; [done|].
    apply negb_false_iff. eapply clean_text_head; [|exact E]. lia. }
  revert Hel Hnr Hrs Hhd HL. generalize (clean_text_for_filename T L) as R.
  intros R Hel Hnr Hrs Hhd HL. unfold clean_text_for_filename.
  rewrite PyReFacts.sub_class_id.
  2:{ apply Forall_forall. intros c Hc. apply negb_false_iff.
      destruct (Hel c Hc) as [->|[_ [->|(_ & _ & Hw)]]]; [|by rewrite Hsp, orb_true_r|done].
      unfold is_word. by rewrite orb_true_r. }
  rewrite PyStrFacts.replace_id.
  2:{ intros Hc. destruct (Hel _ Hc) as [?|[_ [?|(? & _)]]]; done. }
  unfold PyRe.sub_plus. rewrite (PyReFacts.sub_plus_from_id isspace).
  2:{ apply Forall_forall. intros c Hc.
      destruct (Hel c Hc) as [->|[? _]]; done. }
  rewrite PyReFacts.sub_plus_underscore_id; [|done..].
  rewrite PyReFacts.sub_start_plus_nil, PyStrFacts.drop_while_id; [|done].
  rewrite PyStrFacts.slice_to_all; done.
Qed.

Lemma clean_text_for_filename_idempotent_witness :
  let T := py "  ..Sale 50% off__now!! " in
  @isspace ascii_data underscore = false ∧
  @isspace ascii_data space = true ∧
  len (@clean_text_for_filename ascii_data T 7) <= 7 ∧
  @clean_text_for_filename ascii_data (@clean_text_for_filename ascii_data T 7) 7
  = @clean_text_for_filename ascii_data T 7.
Proof.
  intros T. split; [reflexivity|]. split; [reflexivity|].
  assert (Hlen : len (@clean_text_for_filename ascii_data T 7) <= 7)
    by (vm_compute; discriminate).
  split; [exact Hlen|].
  apply (@clean_text_for_filename_idempotent ascii_data T 7); [reflexivity..|exact Hlen].
Defined.

(** ** The allocator *)

Section AllocatorFacts.
Import PyStr PyStrFacts.
Variables (base_name extension : str) (names : gset str).

Lemma loop_step fuel counter new_name :
  generate_unique_filename_loop (S fuel) base_name extension names counter new_name =
  if bool_decide (new_name ∈ names) then
    generate_unique_filename_loop fuel base_name extension names (counter + 1)%N
      (candidate base_name extension (counter + 1)%N)
  else Some new_name.
Proof. reflexivity. Qed.

(** Two texts that agree up to their last occurrence of a pivot agree
    after it. *)
Lemma app_pivot_tail (u : N) (a1 a2 s1 s2 : str) :
  u ∉ s1 → u ∉ s2 → a1 ++ u :: s1 = a2 ++ u :: s2 → s1 = s2.
Proof.
  revert a2. induction a1 as [|x a1 IH]; intros a2 H1 H2 E.
  - destruct a2 as [|y a2]; simpl in E.
    + by injection E.
    + injection E as -> E. exfalso. apply H1. rewrite E.
      apply elem_of_app. right. left.
  - destruct a2 as [|y a2]; simpl in E.
    + injection E as -> E. exfalso. apply H2. rewrite <- E.
      apply elem_of_app. right. left.
    + injection E as _ E. by eapply IH.
Qed.

Lemma str_of_int_no_underscore n : underscore ∉ str_of_int n.
Proof.
  intros Hin. pose proof (str_of_int_digits n) as Hd.
  rewrite Forall_forall in Hd. by specialize (Hd _ Hin).
Qed.

Lemma candidate_inj c1 c2 :
  candidate base_name extension c1 = candidate base_name extension c2 → c1 = c2.
Proof.
  unfold candidate. intros E. injection E as E.
  set (k1 := MAX_FILENAME_LENGTH - len (str_of_int c1) - len extension - 2) in E.
  set (k2 := MAX_FILENAME_LENGTH - len (str_of_int c2) - len extension - 2) in E.
  assert (E' : (slice_to base_name k1 ++ underscore :: str_of_int c1) ++ extension
               = (slice_to base_name k2 ++ underscore :: str_of_int c2) ++ extension).
  { rewrite <- !app_assoc. exact E. }
  apply app_inv_tail in E'. apply app_pivot_tail in E'.
  - by apply str_of_int_inj.
  - apply str_of_int_no_underscore.
  - apply str_of_int_no_underscore.
Qed.

(** A loop that returns returns the first name, in the order it tries
    them, that is not in the set. *)
Lemma loop_Some fuel counter new_name r :
  generate_unique_filename_loop fuel base_name extension names counter new_name = Some r →
  (r ∉ names) ∧
  (((new_name ∉ names) ∧ r = new_name) ∨
   (new_name ∈ names ∧
    ∃ k, (counter < k)%N ∧ r = candidate base_name extension k ∧
         ∀ j, (counter < j < k)%N → candidate base_name extension j ∈ names)).
Proof.
  revert counter new_name. induction fuel as [|fuel IH]; intros counter new_name.
  - simpl. case_bool_decide; [done|]. intros [= <-]. auto.
  - rewrite loop_step. case_bool_decide as Hin; [|intros [= <-]; auto].
    intros [Hr Hcases]%IH. split; [done|]. right. split; [done|].
    destruct Hcases as [[_ ->]|[Hc (k & Hk & -> & Hlow)]].
    + exists (counter + 1)%N. split; [lia|]. split; [done|]. intros j Hj. lia.
    + exists k. split; [lia|]. split; [done|]. intros j Hj.
      destruct (decide (j = counter + 1)%N) as [->|Hne]; [done|].
      apply Hlow. lia.
Qed.

(** A loop that runs out of fuel has found every name it tried in the set. *)
Lemma loop_None fuel counter new_name :
  generate_unique_filename_loop fuel base_name extension names counter new_name = None →
  ∀ i, (1 ≤ i ≤ fuel)%nat → candidate base_name extension (counter + N.of_nat i) ∈ names.
Proof.
  revert counter new_name. induction fuel as [|fuel IH]; intros counter new_name.
  - intros _ i Hi. lia.
  - rewrite loop_step. case_bool_decide as Hin; [|done].
    intros Hnone i Hi. destruct (decide (i = 1%nat)) as [->|Hne].
    + destruct fuel; simpl in Hnone; by case_bool_decide.
    + specialize (IH _ _ Hnone (i - 1)%nat ltac:(lia)).
      replace (counter + N.of_nat i)%N with (counter + 1 + N.of_nat (i - 1))%N by lia.
      done.
Qed.

(** More fuel does not change the result of a loop that returns. *)
Lemma loop_more_fuel fuel fuel' counter new_name r :
  (fuel ≤ fuel')%nat →
  generate_unique_filename_loop fuel base_name extension names counter new_name = Some r →
  generate_unique_filename_loop fuel' base_name extension names counter new_name = Some r.
Proof.
  revert fuel' counter new_name. induction fuel as [|fuel IH]; intros fuel' counter new_name Hle.
  - simpl. case_bool_decide; [done|]. intros [= <-].
    destruct fuel'; simpl; by case_bool_decide.
  - destruct fuel' as [|fuel']; [lia|]. rewrite !loop_step.
    case_bool_decide; [|done]. apply IH. lia.
Qed.

(** The names tried for [fuel] consecutive values of the counter are
    pairwise different, so they do not all fit in a smaller set. *)
Lemma loop_terminates fuel counter new_name :
  (size names < fuel)%nat →
  ∃ r, generate_unique_filename_loop fuel base_name extension names counter new_name = Some r.
Proof.
  intros Hfuel.
  destruct (generate_unique_filename_loop fuel base_name extension names counter new_name)
    as [r|] eqn:E; [by exists r|].
  exfalso. pose proof (loop_None _ _ _ E) as Hall.
  set (tried := (fun i => candidate base_name extension (counter + N.of_nat i)) <$> seq 1 fuel).
  assert (Hnd : NoDup tried).
  { apply NoDup_fmap_2_strong; [|apply NoDup_seq].
    intros i j _ _ Hij%candidate_inj. lia. }
  assert (Hsub : list_to_set tried ⊆ names).
  { intros x Hx. apply elem_of_list_to_set in Hx.
    apply list_elem_of_fmap in Hx as (i & -> & Hi). apply elem_of_seq in Hi.
    apply Hall. lia. }
  apply subseteq_size in Hsub. rewrite size_list_to_set in Hsub by done.
  unfold tried in Hsub. rewrite length_fmap, length_seq in Hsub. lia.
Qed.

Lemma generate_unique_filename_returns fuel :
  (size names < fuel)%nat →
  ∃ r, generate_unique_filename fuel base_name extension names = Some r ∧ r ∉ names.
Proof.
  intros Hfuel. unfold generate_unique_filename.
  destruct (loop_terminates fuel 0%N ([underscore] ++ base_name ++ extension) Hfuel)
    as [r Hr].
  exists r. split; [done|]. by apply loop_Some in Hr as [Hr _].
Qed.

End AllocatorFacts.

(** C1.  For every base name [B], extension [ext] and finite set [S],
    [generate_unique_filename] returns a name that is not in [S], as soon
    as the loop may run once more than [S] has elements.  The name is
    [_] + [B] + [ext] when that is not in [S], and otherwise the candidate
    of the first value of the counter whose candidate is not in [S]. *)
Theorem generate_unique_filename_fresh (B ext : str) (S : gset str) (fuel : nat) :
  (size S < fuel)%nat →
  ∃ new_name,
    generate_unique_filename fuel B ext S = Some new_name ∧
    (new_name ∉ S) ∧
    (((([underscore] ++ B ++ ext) ∉ S) ∧ new_name = [underscore] ++ B ++ ext) ∨
     ((([underscore] ++ B ++ ext) ∈ S) ∧
      ∃ counter, (0 < counter)%N ∧ new_name = candidate B ext counter ∧
                 ∀ j, (0 < j < counter)%N → candidate B ext j ∈ S)).
Proof.
  intros Hfuel. unfold generate_unique_filename.
  destruct (loop_terminates B ext S fuel 0%N ([underscore] ++ B ++ ext) Hfuel) as [r Hr].
  exists r. split; [done|]. by apply loop_Some in Hr.
Qed.

Lemma generate_unique_filename_fresh_witness :
  let S : gset str := {[ py "_a.x"; py "_a_1.x" ]} in
  (size S < 3)%nat ∧
  generate_unique_filename 3 (py "a") (py ".x") S = Some (py "_a_2.x") ∧
  ∃ new_name,
    generate_unique_filename 3 (py "a") (py ".x") S = Some new_name ∧
    (new_name ∉ S) ∧
    (((([underscore] ++ py "a" ++ py ".x") ∉ S) ∧
      new_name = [underscore] ++ py "a" ++ py ".x") ∨
     ((([underscore] ++ py "a" ++ py ".x") ∈ S) ∧
      ∃ counter, (0 < counter)%N ∧ new_name = candidate (py "a") (py ".x") counter ∧
                 ∀ j, (0 < j < counter)%N → candidate (py "a") (py ".x") j ∈ S)).
Proof.
  intros S.
  assert (Hsize : (size S < 3)%nat) by (vm_compute; lia).
  split; [exact Hsize|]. split; [vm_compute; reflexivity|].
  apply (generate_unique_filename_fresh (py "a") (py ".x") S 3 Hsize).
Defined.

(** C4.  [generate_unique_filename] terminates for every base name [B]
    shorter than the maximum filename length, every extension and every
    finite set [S]: the body of the loop runs at most [size S + 1] times
    before the loop reaches a name outside [S], and more fuel does not
    change the name returned.  The bound on the length of [B] is the
    specification's; the proof does not use it. *)
Theorem generate_unique_filename_terminates (B ext : str) (S : gset str) :
  len B < MAX_FILENAME_LENGTH →
  ∃ steps new_name,
    (steps ≤ size S + 1)%nat ∧
    (new_name ∉ S) ∧
    ∀ fuel, (steps ≤ fuel)%nat → generate_unique_filename fuel B ext S = Some new_name.
Proof.
  intros _. unfold generate_unique_filename.
  assert (Hfuel : (size S < size S + 1)%nat) by lia.
  destruct (loop_terminates B ext S (size S + 1) 0%N ([underscore] ++ B ++ ext) Hfuel)
    as [r Hr].
  exists (size S + 1)%nat, r. split; [done|]. split.
  - by apply loop_Some in Hr as [Hr _].
  - intros fuel Hle. by eapply loop_more_fuel.
Qed.

Lemma generate_unique_filename_terminates_witness :
  let S : gset str := {[ py "_a.x"; py "_a_1.x" ]} in
  len (py "a") < MAX_FILENAME_LENGTH ∧
  ∃ steps new_name,
    (steps ≤ size S + 1)%nat ∧
    (new_name ∉ S) ∧
    ∀ fuel, (steps ≤ fuel)%nat →
            generate_unique_filename fuel (py "a") (py ".x") S = Some new_name.
Proof.
  intros S.
  assert (Hlen : len (py "a") < MAX_FILENAME_LENGTH) by (vm_compute; reflexivity).
  split; [exact Hlen|].
  apply (generate_unique_filename_terminates (py "a") (py ".x") S Hlen).
Defined.

(** ** Discovery *)

Section DiscoveryFacts.
Context `{UnicodeData}.
Import PyStr PyStrFacts.

Lemma stem_startswith c (p : Path) : startswith c (stem p) = startswith c (name p).
Proof.
  unfold stem. set (i := rfind dot (name p)).
  destruct (Z.ltb_spec 0 i) as [Hi|]; simpl; [|done].
  destruct (i <? len (name p) - 1); [|done]. unfold slice_to.
  destruct (Z.ltb_spec i 0); [lia|].
  destruct (Z.to_nat i) as [|n] eqn:E; [lia|]. by destruct (name p).
Qed.

Lemma valid_extension_recognized (ext : str) :
  Forall (fun c => in_range 65 90 c = false) ext →
  ext ∈ VALID_EXTENSIONS ↔ ext ∈ recognized.
Proof.
  intros Hlow. unfold VALID_EXTENSIONS, recognized.
  rewrite !elem_of_union, !elem_of_singleton, !elem_of_cons, elem_of_nil.
  split.
  - intros [[[[[->| ->]| ->]| ->]| ->]| ->]; auto.
    + exfalso. apply Forall_cons in Hlow as [_ Hlow].
      apply Forall_cons in Hlow as [Hlow _]. done.
    + exfalso. apply Forall_cons in Hlow as [Hlow _]. done.
  - intros [->|[->|[->|[->|[]]]]]; auto 10.
Qed.

Lemma is_valid_image_file_iff fs self (file_path : Path) :
  lower_is_lowercase →
  _is_valid_image_file fs self file_path = true ↔
  is_file fs file_path = true ∧
  lower (suffix file_path) ∈ recognized ∧
  (skip_existing self = true → startswith underscore (name file_path) = false).
Proof.
  intros Hlow. unfold _is_valid_image_file. rewrite stem_startswith.
  rewrite <- (valid_extension_recognized _ (Hlow _)).
  destruct (is_file fs file_path); simpl; [|by intuition].
  destruct (skip_existing self); simpl.
  - destruct (startswith underscore (name file_path)); simpl.
    + split; [done|]. intros (_ & _ & Hs). by specialize (Hs eq_refl).
    + rewrite bool_decide_eq_true. by intuition.
  - rewrite bool_decide_eq_true. by intuition.
Qed.

Lemma elem_of_get_image_files fs self (f : ImageFile) :
  f ∈ get_image_files fs self ↔
  ∃ file_path,
    file_path ∈ iterdir fs (directory self) ∧
    _is_valid_image_file fs self file_path = true ∧
    f = {| path := file_path;
           original_name := stem file_path;
           extension := lower (suffix file_path) |}.
Proof.
  unfold get_image_files. rewrite list_elem_of_In, in_flat_map. split.
  - intros (p & Hp & Hf). exists p. rewrite list_elem_of_In.
    destruct (_is_valid_image_file fs self p); simpl in Hf; [|done].
    destruct Hf as [<-|[]]. done.
  - intros (p & Hp & Hv & ->). exists p. rewrite <- list_elem_of_In.
    rewrite Hv. simpl. auto.
Qed.

End DiscoveryFacts.

(** C6.  An entry of the directory is discovered if and only if it is a
    regular file, its extension, lowercased, is one of [.jpg], [.jpeg],
    [.png], [.gif], and, when [skip_existing] is set, its name does not start
    with [_]; [skip_existing] is set in a renamer constructed with the
    default arguments.  The fact about [str.lower] it rests on is that a
    lowercased string has none of the letters [A] to [Z]. *)
Theorem discoverer_includes_iff `{UnicodeData} (fs : FileSystem) (self : ImageRenamer)
    (file_path : Path) :
  lower_is_lowercase →
  file_path ∈ iterdir fs (directory self) →
  ((∃ f, f ∈ get_image_files fs self ∧ path f = file_path) ↔
   is_file fs file_path = true ∧
   lower (suffix file_path) ∈ recognized ∧
   (skip_existing self = true → PyStr.startswith underscore (name file_path) = false))
  ∧ ∀ d, skip_existing (ImageRenamer_init d None None) = true.
Proof.
  intros Hlow Hin. split; [|done].
  rewrite <- (is_valid_image_file_iff fs self file_path Hlow). split.
  - intros (f & Hf & <-). apply elem_of_get_image_files in Hf as (p & _ & Hv & ->). done.
  - intros Hv.
    exists {| path := file_path;
              original_name := stem file_path;
              extension := lower (suffix file_path) |}.
    split; [|done]. apply elem_of_get_image_files. by exists file_path.
Qed.

Lemma ascii_lower_is_lowercase : @lower_is_lowercase ascii_data.
Proof.
  intros s. simpl. induction s as [|c s IH]; simpl; constructor; [|done].
  unfold ascii_lower_char, in_range.
  destruct (N.leb_spec 65 c), (N.leb_spec c 90); simpl;
    destruct (N.leb_spec 65 (c + 32)), (N.leb_spec (c + 32) 90); simpl;
    try done; try lia; destruct (N.leb_spec 65 c), (N.leb_spec c 90); simpl; lia.
Defined.

Lemma discoverer_includes_iff_witness :
  let fs := one_file_dir (py "scan.PNG") in
  let self := ImageRenamer_init (py "memes") None None in
  let file_path := of_str (py "memes/scan.PNG") in
  @lower_is_lowercase ascii_data ∧
  file_path ∈ iterdir fs (directory self) ∧
  ((∃ f, f ∈ @get_image_files ascii_data fs self ∧ path f = file_path) ↔
   is_file fs file_path = true ∧
   @lower ascii_data (suffix file_path) ∈ recognized ∧
   (skip_existing self = true → PyStr.startswith underscore (name file_path) = false))
  ∧ ∀ d, skip_existing (ImageRenamer_init d None None) = true.
Proof.
  intros fs self file_path.
  assert (Hin : file_path ∈ iterdir fs (directory self)) by (vm_compute; left).
  split; [exact ascii_lower_is_lowercase|]. split; [exact Hin|].
  apply (@discoverer_includes_iff ascii_data fs self file_path
           ascii_lower_is_lowercase Hin).
Defined.

(** C2.  [main] passes [--process-all] as [skip_existing]: run on a
    directory that holds the regular file [_already_tagged.jpg], [main]
    discovers the file with the default flags and does not discover it with
    [--process-all]. *)
Theorem main_process_all_inverted :
  let fs := one_file_dir (py "_already_tagged.jpg") in
  @main_discovered ascii_data fs [py "memes"]
  = Some [ {| path := of_str (py "memes/_already_tagged.jpg");
              original_name := py "_already_tagged";
              extension := py ".jpg" |} ]
  ∧ @main_discovered ascii_data fs [py "memes"; py "--process-all"] = Some [].
Proof. split; vm_compute; reflexivity. Qed.

(** ** Extraction and renaming *)

Section ProcessingFacts.
Context `{UnicodeData}.
Variable w : World.
Import PyStr PyStrFacts.

Lemma strip_trimmed (t : str) : trimmed_of (strip t) t.
Proof.
  unfold strip, lstrip.
  destruct (drop_while_suffix isspace t) as (l & Hl & HFl).
  destruct (rstrip_prefix isspace (drop_while isspace t)) as (r & Hr & HFr).
  exists l, r. repeat split; [|done|done| |].
  - rewrite <- Hr. exact Hl.
  - intros c s' E. rewrite E in Hr. simpl in Hr.
    by apply drop_while_head in Hr.
  - intros s' c E. by apply rstrip_last in E.
Qed.

Lemma strip_blank (t : str) : Forall (fun c => isspace c = true) t → strip t = [].
Proof. intros Ht. unfold strip, lstrip. by rewrite drop_while_all. Qed.

Lemma extract_text_from_image_eq (image_path : Path) (st : State) :
  extract_text_from_image w image_path st =
  match ocr_outcome w image_path with
  | inl e =>
      if is_Exception e then (Returns None, log_append st (ErrorExtracting image_path e))
      else (Raises e, st)
  | inr [] => (Returns None, st)
  | inr (c :: t) => (Returns (Some (strip (c :: t))), st)
  end.
Proof.
  unfold extract_text_from_image, ocr_outcome, try_except, bind, call, raise, ret.
  destruct (Image_open w image_path) as [e|img]; simpl.
  - by destruct (is_Exception e).
  - destruct (image_to_string w img) as [e|[|c t]]; simpl; [|done..].
    by destruct (is_Exception e).
Qed.

(** Extraction returns when the failures it meets are errors; it leaves
    the registry and the file system as they were. *)
Lemma extract_text_from_image_returns (image_path : Path) (st : State) :
  raises_only_errors w →
  ∃ text st1,
    extract_text_from_image w image_path st = (Returns text, st1) ∧
    existing_names st1 = existing_names st ∧ renamed st1 = renamed st.
Proof.
  intros (Hopen & Hocr & _). rewrite extract_text_from_image_eq.
  destruct (ocr_outcome w image_path) as [e|[|c t]] eqn:E; [|by eauto..].
  assert (He : is_Exception e = true).
  { unfold ocr_outcome in E. destruct (Image_open w image_path) eqn:E'.
    - injection E as <-. by eapply Hopen.
    - by eapply Hocr. }
  rewrite He. by eauto.
Qed.

Lemma process_image_eq (fuel : nat) (f : ImageFile) (st st1 : State) text :
  extract_text_from_image w (path f) st = (Returns text, st1) →
  process_image w fuel f st =
  match generate_unique_filename fuel
          (chosen_base_name text (existing_names st1) (extension f))
          (extension f) (existing_names st1) with
  | None => (OutOfFuel, st1)
  | Some new_name =>
      let new_path := truediv (parent (path f)) new_name in
      match Path_rename w (path f) new_path with
      | inl e =>
          if is_Exception e then (Returns tt, log_append st1 (ErrorProcessing (path f) e))
          else (Raises e, st1)
      | inr _ =>
          (Returns tt,
           {| existing_names := existing_names st1 ∪ {[ new_name ]};
              log := log st1 ++ [InfoRenamed (original_name f) new_name];
              renamed := renamed st1 ++ [(path f, new_path)] |})
      end
  end.
Proof.
  intros Hex. unfold process_image, try_except, bind at 1. rewrite Hex.
  unfold bind at 1, get_existing_names. fold (chosen_base_name text (existing_names st1) (extension f)).
  destruct (generate_unique_filename fuel _ (extension f) (existing_names st1))
    as [new_name|]; [|done].
  unfold bind, rename, existing_names_add, logging.
  destruct (Path_rename w (path f) (truediv (parent (path f)) new_name)) as [e|[]]; simpl; [|done].
  by destruct (is_Exception e).
Qed.

End ProcessingFacts.

(** C7.  [extract_text_from_image] never raises an error to its caller.
    When opening the image or reading its text fails with an error, it
    returns [None] (and logs the error); when the OCR output is empty it
    returns [None]; otherwise it returns the OCR output without its leading
    and trailing whitespace.  The registry and the file system are left as
    they were. *)
Theorem extract_text_from_image_never_raises `{UnicodeData} (w : World)
    (image_path : Path) (st : State) :
  (∀ e, ocr_outcome w image_path = inl e → is_Exception e = true) →
  ∃ text st',
    extract_text_from_image w image_path st = (Returns text, st') ∧
    match ocr_outcome w image_path with
    | inl e => text = None ∧ st' = log_append st (ErrorExtracting image_path e)
    | inr [] => text = None ∧ st' = st
    | inr (c :: t) =>
        text = Some (PyStr.strip (c :: t)) ∧
        trimmed_of (PyStr.strip (c :: t)) (c :: t) ∧ st' = st
    end.
Proof.
  intros Herr. rewrite extract_text_from_image_eq.
  destruct (ocr_outcome w image_path) as [e|[|c t]].
  - rewrite (Herr e eq_refl). eauto.
  - eauto.
  - do 2 eexists. split; [done|]. split; [done|]. split; [|done].
    apply strip_trimmed.
Qed.

Lemma extract_text_from_image_never_raises_witness :
  let image_path := of_str (py "memes/photo.png") in
  (∀ e, ocr_outcome failing_world image_path = inl e → is_Exception e = true) ∧
  ∃ text st',
    @extract_text_from_image ascii_data failing_world image_path two_names
    = (Returns text, st') ∧
    match ocr_outcome failing_world image_path with
    | inl e => text = None ∧ st' = log_append two_names (ErrorExtracting image_path e)
    | inr [] => text = None ∧ st' = two_names
    | inr (c :: t) =>
        text = Some (@PyStr.strip ascii_data (c :: t)) ∧
        @trimmed_of ascii_data (@PyStr.strip ascii_data (c :: t)) (c :: t) ∧
        st' = two_names
    end.
Proof.
  intros image_path.
  assert (Herr : ∀ e, ocr_outcome failing_world image_path = inl e → is_Exception e = true).
  { intros e [= <-]. reflexivity. }
  split; [exact Herr|].
  apply (@extract_text_from_image_never_raises ascii_data failing_world image_path
           two_names Herr).
Defined.

(** C8.  [process_image] never propagates an error: whatever errors
    extraction and the rename call raise, it returns.  When the rename call
    fails, the registry and the file system are left as they were and the
    error is logged; when it succeeds, exactly the new name enters the
    registry. *)
Theorem process_image_never_raises `{UnicodeData} (w : World) (fuel : nat)
    (f : ImageFile) (st : State) :
  raises_only_errors w →
  (size (existing_names st) < fuel)%nat →
  ∃ new_name st',
    process_image w fuel f st = (Returns tt, st') ∧
    (new_name ∉ existing_names st) ∧
    match Path_rename w (path f) (truediv (parent (path f)) new_name) with
    | inl e =>
        existing_names st' = existing_names st ∧
        renamed st' = renamed st ∧
        ∃ l, log st' = l ++ [ErrorProcessing (path f) e]
    | inr _ =>
        existing_names st' = existing_names st ∪ {[ new_name ]} ∧
        renamed st' = renamed st ++ [(path f, truediv (parent (path f)) new_name)]
    end.
Proof.
  intros Herr Hfuel.
  destruct (extract_text_from_image_returns w (path f) st Herr)
    as (text & st1 & Hex & Hn & Hr).
  destruct Herr as (_ & _ & Hren).
  rewrite (process_image_eq w fuel f st st1 text Hex). rewrite Hn, Hr.
  destruct (generate_unique_filename_returns
              (chosen_base_name text (existing_names st) (extension f))
              (extension f) (existing_names st) fuel Hfuel)
    as (new_name & -> & Hfresh).
  exists new_name. simpl.
  destruct (Path_rename w (path f) (truediv (parent (path f)) new_name)) as [e|[]] eqn:E.
  - rewrite (Hren _ _ _ E). eexists. split; [done|]. split; [done|].
    simpl. rewrite Hn, Hr. eauto.
  - eexists. split; [done|]. split; [done|]. done.
Qed.

Lemma reading_world_raises_only_errors ocr_text can_rename :
  raises_only_errors (reading_world ocr_text can_rename).
Proof.
  repeat split; simpl; [done..|].
  intros _ _ e. destruct can_rename; [done|]. by intros [= <-].
Defined.

Lemma process_image_never_raises_witness :
  let w := reading_world (py "Hello World!") false in
  let f := {| path := of_str (py "memes/photo.png");
              original_name := py "photo";
              extension := py ".png" |} in
  raises_only_errors w ∧
  (size (existing_names two_names) < 3)%nat ∧
  ∃ new_name st',
    @process_image ascii_data w 3 f two_names = (Returns tt, st') ∧
    (new_name ∉ existing_names two_names) ∧
    match Path_rename w (path f) (truediv (parent (path f)) new_name) with
    | inl e =>
        existing_names st' = existing_names two_names ∧
        renamed st' = renamed two_names ∧
        ∃ l, log st' = l ++ [ErrorProcessing (path f) e]
    | inr _ =>
        existing_names st' = existing_names two_names ∪ {[ new_name ]} ∧
        renamed st' = renamed two_names ++ [(path f, truediv (parent (path f)) new_name)]
    end.
Proof.
  intros w f.
  assert (Hfuel : (size (existing_names two_names) < 3)%nat) by (vm_compute; lia).
  split; [apply reading_world_raises_only_errors|]. split; [exact Hfuel|].
  apply (@process_image_never_raises ascii_data w 3 f two_names
           (reading_world_raises_only_errors _ _) Hfuel).
Defined.

(** C10.  When the OCR engine returns a text that is not empty and holds
    only whitespace characters, [process_image] names the file as it does
    when no text is extracted: the base name is [meme_<N>], where [N] is the
    size of the registry when the file is processed, and the outcome is the
    one of a run where the engine returned the empty text. *)
Theorem process_image_blank_text_fallback `{UnicodeData} (w : World) (fuel : nat)
    (f : ImageFile) (st : State) (img : Image w) (ocr_text : str) :
  Image_open w (path f) = inr img →
  image_to_string w img = inr ocr_text →
  ocr_text ≠ [] →
  Forall (fun c => isspace c = true) ocr_text →
  (size (existing_names st) < fuel)%nat →
  ∃ new_name,
    generate_unique_filename fuel
      (py "meme_" ++ PyStr.str_of_int (N.of_nat (size (existing_names st))))
      (extension f) (existing_names st) = Some new_name ∧
    process_image w fuel f st =
      (let new_path := truediv (parent (path f)) new_name in
       match Path_rename w (path f) new_path with
       | inl e =>
           if is_Exception e then (Returns tt, log_append st (ErrorProcessing (path f) e))
           else (Raises e, st)
       | inr _ =>
           (Returns tt,
            {| existing_names := existing_names st ∪ {[ new_name ]};
               log := log st ++ [InfoRenamed (original_name f) new_name];
               renamed := renamed st ++ [(path f, new_path)] |})
       end) ∧
    process_image w fuel f st = process_image (with_ocr_text w []) fuel f st.
Proof.
  intros Hopen Hocr Hne Hblank Hfuel.
  assert (Hex : extract_text_from_image w (path f) st = (Returns (Some []), st)).
  { rewrite extract_text_from_image_eq. unfold ocr_outcome. rewrite Hopen, Hocr.
    destruct ocr_text as [|c t]; [done|]. by rewrite strip_blank. }
  assert (Hex' : extract_text_from_image (with_ocr_text w []) (path f) st
                 = (Returns None, st)).
  { rewrite extract_text_from_image_eq. unfold ocr_outcome. simpl. by rewrite Hopen. }
  destruct (generate_unique_filename_returns
              (py "meme_" ++ PyStr.str_of_int (N.of_nat (size (existing_names st))))
              (extension f) (existing_names st) fuel Hfuel) as (new_name & Hgen & _).
  exists new_name. split; [done|].
  rewrite (process_image_eq w fuel f st st _ Hex).
  rewrite (process_image_eq (with_ocr_text w []) fuel f st st _ Hex').
  unfold chosen_base_name. simpl not_text. cbv iota. rewrite Hgen. done.
Qed.

Lemma process_image_blank_text_fallback_witness :
  let blank := [space; newline; space] in
  let w := reading_world blank true in
  let f := {| path := of_str (py "memes/scan.PNG");
              original_name := py "scan";
              extension := py ".png" |} in
  Image_open w (path f) = inr tt ∧
  image_to_string w tt = inr blank ∧
  blank ≠ [] ∧
  Forall (fun c => @isspace ascii_data c = true) blank ∧
  (size (existing_names two_names) < 3)%nat ∧
  generate_unique_filename 3
    (py "meme_" ++ PyStr.str_of_int (N.of_nat (size (existing_names two_names))))
    (extension f) (existing_names two_names) = Some (py "_meme_2.png") ∧
  ∃ new_name,
    generate_unique_filename 3
      (py "meme_" ++ PyStr.str_of_int (N.of_nat (size (existing_names two_names))))
      (extension f) (existing_names two_names) = Some new_name ∧
    @process_image ascii_data w 3 f two_names =
      (let new_path := truediv (parent (path f)) new_name in
       match Path_rename w (path f) new_path with
       | inl e =>
           if is_Exception e
           then (Returns tt, log_append two_names (ErrorProcessing (path f) e))
           else (Raises e, two_names)
       | inr _ =>
           (Returns tt,
            {| existing_names := existing_names two_names ∪ {[ new_name ]};
               log := log two_names ++ [InfoRenamed (original_name f) new_name];
               renamed := renamed two_names ++ [(path f, new_path)] |})
       end) ∧
    @process_image ascii_data w 3 f two_names
    = @process_image ascii_data (with_ocr_text w []) 3 f two_names.
Proof.
  intros blank w f.
  assert (Hne : blank ≠ []) by discriminate.
  assert (Hblank : Forall (fun c => @isspace ascii_data c = true) blank)
    by (repeat constructor).
  assert (Hfuel : (size (existing_names two_names) < 3)%nat) by (vm_compute; lia).
  split; [reflexivity|]. split; [reflexivity|]. split; [exact Hne|].
  split; [exact Hblank|]. split; [exact Hfuel|]. split; [vm_compute; reflexivity|].
  apply (@process_image_blank_text_fallback ascii_data w 3 f two_names tt blank
           eq_refl eq_refl Hne Hblank Hfuel).
Defined.

(** ** Renaming in place *)

Section RenameFacts.
Context `{UnicodeData}.
Import PyStr PyStrFacts.

Lemma split_no_sep sep (s : str) : sep ∉ s → PyPath.split sep s = [s].
Proof.
  induction s as [|c s IH]; simpl; [done|].
  intros [Hc Hs]%not_elem_of_cons.
  destruct (N.eqb_spec c sep) as [->|_]; [done|]. by rewrite IH.
Qed.

(** Joining a single component that starts with an underscore appends it. *)
Lemma truediv_component (d : Path) (t : str) :
  slash ∉ t →
  truediv d (underscore :: t) = {| anchor := anchor d; parts := parts d ++ [underscore :: t] |}.
Proof.
  intros Ht. unfold truediv, parse_parts. simpl startswith. cbv iota.
  rewrite split_no_sep; [done|].
  apply not_elem_of_cons. split; [done|exact Ht].
Qed.

Lemma parent_truediv_component (p : Path) (t : str) :
  slash ∉ t →
  parent (truediv (parent p) (underscore :: t)) = parent p ∧
  name (truediv (parent p) (underscore :: t)) = underscore :: t.
Proof.
  intros Ht. rewrite truediv_component by done. unfold parent, name. simpl.
  by rewrite removelast_last, last_last.
Qed.

Lemma suffix_elem_of (p : Path) c : c ∈ suffix p → c ∈ name p.
Proof.
  unfold suffix, slice_from.
  destruct (_ && _); [|by intros ?%elem_of_nil].
  intros Hc. rewrite <- (take_drop (Z.to_nat (rfind dot (name p))) (name p)).
  apply elem_of_app. by right.
Qed.

Lemma slice_to_elem_of (s : str) k c : c ∈ slice_to s k → c ∈ s.
Proof.
  intros Hc. destruct (slice_to_prefix s k) as [u ->].
  apply elem_of_app. by left.
Qed.

Lemma chosen_base_name_no_slash text names ext :
  isalnum slash = false → slash ∉ chosen_base_name text names ext.
Proof.
  intros Hal. unfold chosen_base_name. destruct (not_text text).
  - rewrite elem_of_app. intros [Hc|Hc].
    + vm_compute in Hc. repeat (inversion Hc as [|? ? ? Hc']; subst; clear Hc; rename Hc' into Hc).
    + pose proof (str_of_int_digits (N.of_nat (size names))) as Hd.
      rewrite Forall_forall in Hd. by specialize (Hd _ Hc).
  - intros Hc. apply elem_of_clean_text in Hc as [Hc|[Hsp [Hc|(_ & _ & Hw)]]]; [done..|].
    rewrite Hsp, orb_false_r in Hw. unfold is_word in Hw. by rewrite Hal in Hw.
Qed.

(** A name the allocator returns is [_], then characters of the base name,
    underscores and digits, then the extension. *)
Lemma generate_unique_filename_shape fuel (base_name extension : str) names r :
  generate_unique_filename fuel base_name extension names = Some r →
  ∃ t, r = underscore :: t ++ extension ∧
       ∀ c, c ∈ t → c ∈ base_name ∨ c = underscore ∨ in_range 48 57 c = true.
Proof.
  intros [_ Hr]%loop_Some.
  destruct Hr as [[_ ->]|[_ (k & _ & -> & _)]].
  - exists base_name. split; [done|]. auto.
  - unfold candidate.
    exists (slice_to base_name
              (MAX_FILENAME_LENGTH - len (str_of_int k) - len extension - 2)
            ++ [underscore] ++ str_of_int k).
    split; [by rewrite <- !app_assoc|].
    intros c. rewrite !elem_of_app. intros [Hc|[Hc|Hc]].
    + left. by eapply slice_to_elem_of.
    + apply list_elem_of_singleton in Hc. auto.
    + pose proof (str_of_int_digits k) as Hd. rewrite Forall_forall in Hd. auto.
Qed.

End RenameFacts.

(** C5, as the program has it.  For every discovered file, a rename that
    [process_image] performs moves the file to a name in the same parent
    directory, and that name ends with the lowercased extension of the
    original name.  The facts about the tables it rests on are that [/] is
    not alphanumeric and that lowercasing introduces no [/]; the name of
    the file, a path component, holds no [/]. *)
Theorem process_image_renames_in_place `{UnicodeData} (w : World) (fs : FileSystem)
    (self : ImageRenamer) (fuel : nat) (f : ImageFile) (st st' : State)
    (r : outcome unit) :
  isalnum slash = false →
  lower_keeps_slash_out →
  f ∈ get_image_files fs self →
  slash ∉ name (path f) →
  process_image w fuel f st = (r, st') →
  renamed st' = renamed st ∨
  ∃ dst, renamed st' = renamed st ++ [(path f, dst)] ∧
         parent dst = parent (path f) ∧
         ∃ s, name dst = s ++ lower (suffix (path f)).
Proof.
  intros Hal Hlow Hf Hname Hrun.
  apply elem_of_get_image_files in Hf as (file_path & _ & _ & ->).
  simpl in Hname, Hrun |- *.
  set (f := {| path := file_path; original_name := stem file_path;
               extension := lower (suffix file_path) |}) in *.
  pose proof (extract_text_from_image_eq w file_path st) as Hex.
  assert (Hcases :
    (∃ e, process_image w fuel f st = (Raises e, st)) ∨
    (∃ text st1, extract_text_from_image w file_path st = (Returns text, st1) ∧
                 renamed st1 = renamed st)).
  { destruct (ocr_outcome w file_path) as [e|[|c t]]; [|by eauto..].
    destruct (is_Exception e) eqn:He; [by eauto|].
    left. exists e. unfold process_image, try_except, bind at 1.
    change (path f) with file_path. by rewrite Hex, He. }
  destruct Hcases as [[e He]|(text & st1 & Hex1 & Hr1)].
  { rewrite He in Hrun. injection Hrun as _ <-. by left. }
  rewrite (process_image_eq w fuel f st st1 text Hex1) in Hrun.
  destruct (generate_unique_filename fuel _ (extension f) (existing_names st1))
    as [new_name|] eqn:Hgen.
  2:{ injection Hrun as _ <-. by left. }
  simpl in Hrun. change (path f) with file_path in Hrun.
  destruct (Path_rename w file_path (truediv (parent file_path) new_name)) as [e|[]].
  { destruct (is_Exception e); injection Hrun as _ <-; by left. }
  injection Hrun as _ <-. right. simpl.
  apply generate_unique_filename_shape in Hgen as (t & -> & Ht).
  assert (Hslash : slash ∉ t ++ extension f).
  { rewrite elem_of_app. intros [Hc|Hc].
    - destruct (Ht _ Hc) as [Hb|[?|?]]; [|done..].
      by apply chosen_base_name_no_slash in Hb.
    - revert Hc. apply Hlow. intros Hc. by apply suffix_elem_of in Hc. }
  destruct (parent_truediv_component file_path (t ++ extension f) Hslash) as [Hp Hn].
  eexists. split; [by rewrite Hr1|]. split; [exact Hp|].
  exists (underscore :: t). by rewrite Hn.
Qed.

Lemma ascii_lower_keeps_slash_out : @lower_keeps_slash_out ascii_data.
Proof.
  intros s Hs. simpl. intros Hin. apply Hs.
  apply list_elem_of_fmap in Hin as (c & Hc & Hin).
  unfold ascii_lower_char, in_range in Hc.
  destruct (N.leb_spec 65 c), (N.leb_spec c 90); simpl in Hc;
    try (rewrite Hc; exact Hin); unfold slash in Hc; lia.
Defined.

Lemma process_image_renames_in_place_witness :
  let fs := one_file_dir (py "scan.PNG") in
  let self := ImageRenamer_init (py "memes") None None in
  let w := reading_world [] true in
  let f := {| path := of_str (py "memes/scan.PNG");
              original_name := py "scan";
              extension := py ".png" |} in
  let st' := {| existing_names := existing_names two_names ∪ {[ py "_meme_2.png" ]};
                log := [InfoRenamed (py "scan") (py "_meme_2.png")];
                renamed := [(path f, of_str (py "memes/_meme_2.png"))] |} in
  @isalnum ascii_data slash = false ∧
  @lower_keeps_slash_out ascii_data ∧
  f ∈ @get_image_files ascii_data fs self ∧
  (slash ∉ name (path f)) ∧
  @process_image ascii_data w 3 f two_names = (Returns tt, st') ∧
  (renamed st' = renamed two_names ∨
   ∃ dst, renamed st' = renamed two_names ++ [(path f, dst)] ∧
          parent dst = parent (path f) ∧
          ∃ s, name dst = s ++ @lower ascii_data (suffix (path f))).
Proof.
  intros fs self w f st'.
  assert (Hf : f ∈ @get_image_files ascii_data fs self) by (vm_compute; left).
  assert (Hname : slash ∉ name (path f)).
  { vm_compute. intros Hin.
    repeat (inversion Hin as [|? ? ? Hin']; subst; clear Hin; rename Hin' into Hin). }
  assert (Hrun : @process_image ascii_data w 3 f two_names = (Returns tt, st'))
    by (vm_compute; reflexivity).
  split; [reflexivity|]. split; [exact ascii_lower_keeps_slash_out|].
  split; [exact Hf|]. split; [exact Hname|]. split; [exact Hrun|].
  apply (@process_image_renames_in_place ascii_data w fs self 3 f two_names st'
           (Returns tt) eq_refl ascii_lower_keeps_slash_out Hf Hname Hrun).
Defined.

(** C5, as the specification states it, fails.  The file [scan.PNG], in which the
    OCR engine reads no text, is discovered and renamed, in the same
    directory, to [_meme_2.png]: the new name does not end in [.PNG]. *)
Lemma process_image_lowercases_extension :
  let fs := one_file_dir (py "scan.PNG") in
  let self := ImageRenamer_init (py "memes") None None in
  let w := reading_world [] true in
  let src := of_str (py "memes/scan.PNG") in
  let dst := of_str (py "memes/_meme_2.png") in
  ∃ f st',
    @get_image_files ascii_data fs self = [f] ∧
    path f = src ∧
    @process_image ascii_data w 3 f two_names = (Returns tt, st') ∧
    renamed st' = [(src, dst)] ∧
    parent dst = parent src ∧
    suffix src = py ".PNG" ∧
    suffix dst = py ".png" ∧
    ¬ ∃ s, name dst = s ++ py ".PNG".
Proof.
  intros fs self w src dst.
  do 2 eexists. split; [vm_compute; reflexivity|]. split; [reflexivity|].
  split; [vm_compute; reflexivity|]. split; [reflexivity|].
  split; [reflexivity|]. split; [reflexivity|]. split; [reflexivity|].
  intros [s Hs]. apply (f_equal (@rev N)) in Hs.
  rewrite rev_app_distr in Hs. vm_compute in Hs. discriminate.
Qed.

(** * Further properties of the program *)

(** ** The sanitizer *)

Section SanitizerMore.
Context `{UnicodeData}.
Import PyStr PyRe PyStrFacts PyReFacts.

Lemma drop_while_app p (a b : str) :
  drop_while p (a ++ b) =
  match drop_while p a with
  | [] => drop_while p b
  | d => d ++ b
  end.
Proof.
  induction a as [|c a IH]; simpl; [by destruct (drop_while p b)|].
  by destruct (p c).
Qed.

Lemma rstrip_cons p c (x : str) :
  rstrip p (c :: x) =
  match rstrip p x with
  | [] => if p c then [] else [c]
  | r => c :: r
  end.
Proof.
  unfold rstrip. simpl rev. rewrite drop_while_app.
  destruct (drop_while p (rev x)) as [|d ds]; simpl.
  - by destruct (p c).
  - rewrite rev_app_distr. simpl. by destruct (rev ds ++ [d]) eqn:E;
      [apply app_eq_nil in E as [_ ?]|].
Qed.

(** Stripping the end of a text and of a longer text. *)
Lemma rstrip_prefix_mono p (x y : str) :
  x `prefix_of` y → rstrip p x `prefix_of` rstrip p y.
Proof.
  revert y. induction x as [|c x IH]; intros y Hxy; [apply prefix_nil|].
  destruct y as [|d y]; [by apply prefix_nil_not in Hxy|].
  pose proof (prefix_cons_inv_1 _ _ _ _ Hxy) as ->.
  apply prefix_cons_inv_2 in Hxy. specialize (IH y Hxy).
  rewrite !rstrip_cons.
  destruct (rstrip p x) as [|r rs].
  - destruct (p d); [apply prefix_nil|].
    destruct (rstrip p y); [done|]. apply prefix_cons, prefix_nil.
  - destruct (rstrip p y) as [|q qs]; [by apply prefix_nil_not in IH|].
    by apply prefix_cons.
Qed.

Lemma length_sub_class cls u (t : str) : length (sub_class cls [u] t) = length t.
Proof.
  unfold sub_class. induction t as [|c t IH]; simpl; [done|].
  destruct (cls c); simpl; by rewrite IH.
Qed.

Lemma length_replace old u (t : str) : length (replace old [u] t) = length t.
Proof.
  unfold replace. induction t as [|c t IH]; simpl; [done|].
  destruct (c =? old)%N; simpl; by rewrite IH.
Qed.

Lemma length_sub_plus_from cls u b (t : str) :
  (length (sub_plus_from cls [u] b t) ≤ length t)%nat.
Proof.
  revert b. induction t as [|c t IH]; intros b; simpl; [done|].
  pose proof (IH true). pose proof (IH false).
  destruct (cls c); [destruct b|]; simpl; lia.
Qed.

End SanitizerMore.

Section SanitizerBounds.
Context `{UnicodeData}.
Import PyStr PyRe PyStrFacts PyReFacts.

Lemma len_collapsed (text : str) : len (collapsed text) <= len text.
Proof.
  unfold collapsed, sub_plus, len.
  pose proof (length_sub_plus_from is_underscore underscore false
    (sub_plus_from isspace [underscore] false
       (replace newline [space]
          (sub_class (fun c => negb (is_word c || isspace c)) [underscore] text)))).
  pose proof (length_sub_plus_from isspace underscore false
    (replace newline [space]
       (sub_class (fun c => negb (is_word c || isspace c)) [underscore] text))).
  rewrite length_replace, length_sub_class in *. lia.
Qed.

Lemma len_drop_while p (s : str) : len (drop_while p s) <= len s.
Proof.
  destruct (drop_while_suffix p s) as (u & Hu & _).
  rewrite Hu at 2. unfold len. rewrite length_app. lia.
Qed.

Lemma len_rstrip p (s : str) : len (rstrip p s) <= len s.
Proof.
  destruct (rstrip_prefix p s) as (u & Hu & _).
  rewrite Hu at 2. unfold len. rewrite length_app. lia.
Qed.

Lemma len_slice_to (s : str) k : len (slice_to s k) <= Z.max 0 (Z.min (len s) (len s + k)).
Proof.
  unfold slice_to, len. destruct (Z.ltb_spec k 0); rewrite length_take; lia.
Qed.

End SanitizerBounds.

(** X1.  The result of [clean_text_for_filename] never ends with an
    underscore, whatever the text and the budget. *)
Theorem clean_text_no_trailing_underscore `{UnicodeData} (T : str) (L : Z) :
  ∀ r c, clean_text_for_filename T L = r ++ [c] → c ≠ underscore.
Proof.
  intros r c E. unfold clean_text_for_filename in E.
  apply PyStrFacts.rstrip_last in E. by intros ->.
Qed.

Lemma clean_text_no_trailing_underscore_witness :
  let T := py "  ..Sale 50% off__now!! " in
  @clean_text_for_filename ascii_data T 8 = py "Sale_5" ++ [48%N] ∧ 48%N ≠ underscore.
Proof.
  intros T.
  assert (E : @clean_text_for_filename ascii_data T 8 = py "Sale_5" ++ [48%N])
    by (vm_compute; reflexivity).
  split; [exact E|].
  apply (@clean_text_no_trailing_underscore ascii_data T 8 (py "Sale_5") 48%N E).
Defined.

(** X2.  Every character of the result of [clean_text_for_filename] is a
    word character (of the class [\w]), and it is an underscore or a
    character of the text.  The fact about the whitespace table it rests on
    is that the space is a whitespace character. *)
Theorem clean_text_word_characters `{UnicodeData} (T : str) (L : Z) :
  isspace space = true →
  Forall (fun c => is_word c = true ∧ (c = underscore ∨ c ∈ T))
         (clean_text_for_filename T L).
Proof.
  intros Hsp. apply Forall_forall. intros c Hc.
  apply elem_of_clean_text in Hc as [->|[Hns [->|(_ & Hin & Hw)]]].
  - split; [|by left]. unfold is_word. by rewrite orb_true_r.
  - congruence.
  - split; [|by right]. by rewrite Hns, orb_false_r in Hw.
Qed.

Lemma clean_text_word_characters_witness :
  let T := py "  ..Sale 50% off__now!! " in
  @isspace ascii_data space = true ∧
  Forall (fun c => @is_word ascii_data c = true ∧ (c = underscore ∨ c ∈ T))
         (@clean_text_for_filename ascii_data T 249).
Proof.
  intros T. split; [reflexivity|].
  apply (@clean_text_word_characters ascii_data T 249). reflexivity.
Defined.

(** X3.  A text without any of the characters [[a-zA-Z0-9]] is sanitized
    to the empty string, whatever the budget. *)
Theorem clean_text_without_alnum_empty `{UnicodeData} (T : str) (L : Z) :
  Forall (fun c => ascii_alnum c = false) T →
  clean_text_for_filename T L = [].
Proof.
  intros HT. rewrite clean_text_unfold.
  rewrite PyStrFacts.drop_while_all.
  - unfold PyStr.slice_to. destruct (L <? 0); by rewrite take_nil.
  - apply Forall_forall. intros c Hc. apply negb_true_iff.
    apply elem_of_collapsed in Hc as [->|[_ [->|(_ & Hin & _)]]]; [done..|].
    rewrite Forall_forall in HT. by apply HT.
Qed.

Lemma clean_text_without_alnum_empty_witness :
  let T := py "?!... --- !!" in
  Forall (fun c => ascii_alnum c = false) T ∧
  @clean_text_for_filename ascii_data T 249 = [].
Proof.
  intros T.
  assert (HT : Forall (fun c => ascii_alnum c = false) T) by (repeat constructor).
  split; [exact HT|].
  apply (@clean_text_without_alnum_empty ascii_data T 249 HT).
Defined.

(** X4.  A larger budget only extends the sanitized name: for budgets
    [0 <= L <= L'] the result for [L] is a prefix of the result for [L']. *)
Theorem clean_text_budget_monotone `{UnicodeData} (T : str) (L L' : Z) :
  0 <= L → L <= L' →
  clean_text_for_filename T L `prefix_of` clean_text_for_filename T L'.
Proof.
  intros H0 HL. rewrite !clean_text_unfold.
  apply rstrip_prefix_mono. unfold PyStr.slice_to.
  destruct (Z.ltb_spec L 0); [lia|]. destruct (Z.ltb_spec L' 0); [lia|].
  set (s := PyStr.drop_while _ _).
  replace (Z.to_nat L) with (Z.to_nat L `min` Z.to_nat L')%nat by lia.
  rewrite <- take_take. apply prefix_take.
Qed.

Lemma clean_text_budget_monotone_witness :
  let T := py "  ..Sale 50% off__now!! " in
  0 <= 8 ∧ 8 <= 11 ∧
  @clean_text_for_filename ascii_data T 8 = py "Sale_50" ∧
  @clean_text_for_filename ascii_data T 11 = py "Sale_50_off" ∧
  @clean_text_for_filename ascii_data T 8
    `prefix_of` @clean_text_for_filename ascii_data T 11.
Proof.
  intros T. split; [lia|]. split; [lia|].
  split; [reflexivity|]. split; [reflexivity|].
  apply (@clean_text_budget_monotone ascii_data T 8 11); lia.
Defined.

(** X5.  The result of [clean_text_for_filename] is never longer than the
    text.  With a negative budget [L], which the slice [text[:L]] reads from
    the end, at least [-L] characters are cut: the result has at most
    [len T + L] characters, and none when that is negative. *)
Theorem clean_text_length_input `{UnicodeData} (T : str) (L : Z) :
  len (clean_text_for_filename T L) <= len T ∧
  len (clean_text_for_filename T L) <= Z.max 0 (len T + L).
Proof.
  rewrite clean_text_unfold.
  set (s := PyStr.drop_while (fun c => negb (ascii_alnum c)) (collapsed T)).
  assert (Hs : len s <= len T).
  { pose proof (len_drop_while (fun c => negb (ascii_alnum c)) (collapsed T)).
    pose proof (len_collapsed T). unfold s. lia. }
  pose proof (len_rstrip is_underscore (PyStr.slice_to s L)).
  pose proof (len_slice_to s L). pose proof (PyStrFacts.len_nonneg s). lia.
Qed.

(** ** The allocator *)

Section AllocatorMore.
Import PyStr PyStrFacts.
Variables (base_name extension : str) (names : gset str).

(** The loop does not try a counter beyond what its fuel allows. *)
Lemma loop_Some_bound fuel counter new_name r :
  generate_unique_filename_loop fuel base_name extension names counter new_name = Some r →
  r = new_name ∨
  ∃ k, (counter < k ≤ counter + N.of_nat fuel)%N ∧ r = candidate base_name extension k.
Proof.
  revert counter new_name. induction fuel as [|fuel IH]; intros counter new_name.
  - simpl. case_bool_decide; [done|]. intros [= <-]. by left.
  - rewrite loop_step. case_bool_decide; [|intros [= <-]; by left].
    intros [->|(k & Hk & ->)]%IH; right.
    + exists (counter + 1)%N. split; [lia|done].
    + exists k. split; [lia|done].
Qed.

Lemma len_app (a b : str) : len (a ++ b) = len a + len b.
Proof. unfold len. rewrite length_app. lia. Qed.

End AllocatorMore.

(** X6.  When [_] + [B] + [ext] is taken, the name
    [generate_unique_filename] returns is [_] + [B'] + [_] + [str(k)] +
    [ext] for a counter [1 <= k] within the fuel and a prefix [B'] of [B].
    When [str(k)], [ext] and the two underscores fit in the maximum
    filename length the name has at most [MAX_FILENAME_LENGTH] characters,
    and when [B] fits with them it is kept whole. *)
Theorem generate_unique_filename_collision (B ext : str) (S : gset str) (fuel : nat)
    (r : str) :
  generate_unique_filename fuel B ext S = Some r →
  ([underscore] ++ B ++ ext) ∈ S →
  ∃ k B',
    (0 < k ≤ N.of_nat fuel)%N ∧
    B' `prefix_of` B ∧
    r = [underscore] ++ B' ++ [underscore] ++ PyStr.str_of_int k ++ ext ∧
    (len (PyStr.str_of_int k) + len ext + 2 <= MAX_FILENAME_LENGTH →
     len r <= MAX_FILENAME_LENGTH) ∧
    (len B + len (PyStr.str_of_int k) + len ext + 2 <= MAX_FILENAME_LENGTH → B' = B).
Proof.
  intros Hgen Hin. unfold generate_unique_filename in Hgen.
  pose proof (loop_Some_bound _ _ _ _ _ _ _ Hgen) as [->|(k & Hk & ->)].
  { apply loop_Some in Hgen as [Hr _]. done. }
  exists k.
  eexists (PyStr.slice_to B (MAX_FILENAME_LENGTH - len (PyStr.str_of_int k) - len ext - 2)).
  split; [lia|]. split.
  { destruct (PyStrFacts.slice_to_prefix B
                (MAX_FILENAME_LENGTH - len (PyStr.str_of_int k) - len ext - 2)) as [u Hu].
    by exists u. }
  split; [done|]. split.
  - intros Hfit. unfold candidate. rewrite !len_app.
    pose proof (PyStrFacts.slice_to_len B
                  (MAX_FILENAME_LENGTH - len (PyStr.str_of_int k) - len ext - 2)
                  ltac:(lia)).
    change (len [underscore]) with 1. lia.
  - intros Hfit. apply PyStrFacts.slice_to_all. lia.
Qed.

Lemma generate_unique_filename_collision_witness :
  let S : gset str := {[ py "_a.x"; py "_a_1.x" ]} in
  generate_unique_filename 3 (py "a") (py ".x") S = Some (py "_a_2.x") ∧
  (([underscore] ++ py "a" ++ py ".x") ∈ S) ∧
  ∃ k B',
    (0 < k ≤ N.of_nat 3)%N ∧
    B' `prefix_of` py "a" ∧
    py "_a_2.x" = [underscore] ++ B' ++ [underscore] ++ PyStr.str_of_int k ++ py ".x" ∧
    (len (PyStr.str_of_int k) + len (py ".x") + 2 <= MAX_FILENAME_LENGTH →
     len (py "_a_2.x") <= MAX_FILENAME_LENGTH) ∧
    (len (py "a") + len (PyStr.str_of_int k) + len (py ".x") + 2 <= MAX_FILENAME_LENGTH →
     B' = py "a").
Proof.
  intros S.
  assert (Hgen : generate_unique_filename 3 (py "a") (py ".x") S = Some (py "_a_2.x"))
    by (vm_compute; reflexivity).
  assert (Hin : ([underscore] ++ py "a" ++ py ".x") ∈ S)
    by (vm_compute; reflexivity).
  split; [exact Hgen|]. split; [exact Hin|].
  apply (generate_unique_filename_collision (py "a") (py ".x") S 3 (py "_a_2.x") Hgen Hin).
Defined.

(** X7.  A name [generate_unique_filename] returns starts with the
    sentinel [_], so a renamer that skips existing files does not take a
    file of that name for an image to process. *)
Theorem allocated_name_not_rediscovered `{UnicodeData} (fs : FileSystem)
    (self : ImageRenamer) (fuel : nat) (B ext : str) (S : gset str) (r : str)
    (file_path : Path) :
  generate_unique_filename fuel B ext S = Some r →
  name file_path = r →
  skip_existing self = true →
  _is_valid_image_file fs self file_path = false.
Proof.
  intros Hgen Hname Hskip.
  apply generate_unique_filename_shape in Hgen as (t & -> & _).
  unfold _is_valid_image_file. rewrite stem_startswith, Hname, Hskip. simpl.
  by destruct (is_file fs file_path).
Qed.

Lemma allocated_name_not_rediscovered_witness :
  let S : gset str := {[ py "_a.png"; py "_a_1.png" ]} in
  let fs := one_file_dir (py "_a_2.png") in
  let self := ImageRenamer_init (py "memes") None None in
  let file_path := of_str (py "memes/_a_2.png") in
  generate_unique_filename 3 (py "a") (py ".png") S = Some (py "_a_2.png") ∧
  name file_path = py "_a_2.png" ∧
  skip_existing self = true ∧
  @_is_valid_image_file ascii_data fs self file_path = false.
Proof.
  intros S fs self file_path.
  assert (Hgen : generate_unique_filename 3 (py "a") (py ".png") S = Some (py "_a_2.png"))
    by (vm_compute; reflexivity).
  split; [exact Hgen|]. split; [reflexivity|]. split; [reflexivity|].
  apply (@allocated_name_not_rediscovered ascii_data fs self 3 (py "a") (py ".png") S
           (py "_a_2.png") file_path Hgen eq_refl eq_refl).
Defined.

(** ** Discovery *)

(** X8.  [get_image_files] reports the valid entries of the directory in
    the order the directory lists them, one record for each; the record of
    an entry holds its stem as original name and its lowercased suffix,
    which is one of [.jpg], [.jpeg], [.png], [.gif], as extension. *)
Theorem get_image_files_in_order `{UnicodeData} (fs : FileSystem) (self : ImageRenamer) :
  lower_is_lowercase →
  map path (get_image_files fs self)
  = List.filter (_is_valid_image_file fs self) (iterdir fs (directory self)) ∧
  Forall (fun f => is_file fs (path f) = true ∧
                   original_name f = stem (path f) ∧
                   extension f = lower (suffix (path f)) ∧
                   extension f ∈ recognized)
         (get_image_files fs self).
Proof.
  intros Hlow. split.
  - unfold get_image_files. induction (iterdir fs (directory self)) as [|p ps IH]; [done|].
    simpl. destruct (_is_valid_image_file fs self p); simpl; by rewrite IH.
  - apply Forall_forall. intros f Hf.
    apply elem_of_get_image_files in Hf as (p & _ & Hv & ->). simpl.
    apply (is_valid_image_file_iff fs self p Hlow) in Hv as (Hfile & Hext & _). done.
Qed.

Lemma get_image_files_in_order_witness :
  let fs := {| iterdir := fun d => [truediv d (py "notes.txt");
                                    truediv d (py "scan.PNG");
                                    truediv d (py "_done.jpg");
                                    truediv d (py "photo.jpeg")];
               is_file := fun _ => true |} in
  let self := ImageRenamer_init (py "memes") None None in
  @lower_is_lowercase ascii_data ∧
  map path (@get_image_files ascii_data fs self)
  = [of_str (py "memes/scan.PNG"); of_str (py "memes/photo.jpeg")] ∧
  map path (@get_image_files ascii_data fs self)
  = List.filter (@_is_valid_image_file ascii_data fs self) (iterdir fs (directory self)) ∧
  Forall (fun f => is_file fs (path f) = true ∧
                   original_name f = stem (path f) ∧
                   extension f = @lower ascii_data (suffix (path f)) ∧
                   extension f ∈ recognized)
         (@get_image_files ascii_data fs self).
Proof.
  intros fs self. split; [exact ascii_lower_is_lowercase|].
  split; [vm_compute; reflexivity|].
  apply (@get_image_files_in_order ascii_data fs self ascii_lower_is_lowercase).
Defined.

(** ** Processing one file *)

Section ProcessingMore.
Context `{UnicodeData}.
Variable w : World.

(** Extraction either lets an exception that is not an error through, and
    then so does [process_image], or returns with the registry and the file
    system as they were. *)
Lemma process_image_extract_cases (fuel : nat) (f : ImageFile) (st : State) :
  (∃ e, ocr_outcome w (path f) = inl e ∧ is_Exception e = false ∧
        extract_text_from_image w (path f) st = (Raises e, st) ∧
        process_image w fuel f st = (Raises e, st)) ∨
  (∃ text st1 l,
      extract_text_from_image w (path f) st = (Returns text, st1) ∧
      existing_names st1 = existing_names st ∧
      renamed st1 = renamed st ∧
      log st1 = log st ++ l).
Proof.
  pose proof (extract_text_from_image_eq w (path f) st) as Hex.
  destruct (ocr_outcome w (path f)) as [e|[|c t]].
  - destruct (is_Exception e) eqn:He.
    + right. exists None, (log_append st (ErrorExtracting (path f) e)),
        [ErrorExtracting (path f) e]. done.
    + left. exists e. split; [done|]. split; [done|]. split; [done|].
      unfold process_image, try_except, bind at 1. by rewrite Hex, He.
  - right. exists None, st, []. by rewrite app_nil_r.
  - right. exists (Some (PyStr.strip (c :: t))), st, []. by rewrite app_nil_r.
Qed.

(** What one call of [process_image] does to the state. *)
Lemma process_image_step (fuel : nat) (f : ImageFile) (st st' : State) r :
  process_image w fuel f st = (r, st') →
  (∃ l, log st' = log st ++ l) ∧
  ((existing_names st' = existing_names st ∧ renamed st' = renamed st) ∨
   (∃ n, r = Returns tt ∧
         (n ∉ existing_names st) ∧
         Path_rename w (path f) (truediv (parent (path f)) n) = inr tt ∧
         existing_names st' = existing_names st ∪ {[ n ]} ∧
         renamed st' = renamed st ++ [(path f, truediv (parent (path f)) n)])).
Proof.
  intros Hrun.
  destruct (process_image_extract_cases fuel f st)
    as [(e & _ & _ & _ & He)|(text & st1 & l & Hex & Hn & Hr & Hl)].
  { rewrite He in Hrun. injection Hrun as _ <-. split; [|by left].
    exists []. by rewrite app_nil_r. }
  rewrite (process_image_eq w fuel f st st1 text Hex) in Hrun.
  destruct (generate_unique_filename fuel _ (extension f) (existing_names st1))
    as [n|] eqn:Hgen.
  2:{ injection Hrun as _ <-. split; [by exists l|by left]. }
  simpl in Hrun.
  destruct (Path_rename w (path f) (truediv (parent (path f)) n)) as [e|[]] eqn:Hren.
  - destruct (is_Exception e); injection Hrun as _ <-; simpl; (split; [|by left]).
    + exists (l ++ [ErrorProcessing (path f) e]). by rewrite Hl, app_assoc.
    + by exists l.
  - injection Hrun as <- <-. simpl. split.
    + exists (l ++ [InfoRenamed (original_name f) n]). by rewrite Hl, app_assoc.
    + right. exists n. rewrite Hn, Hr. repeat split; [|done].
      apply loop_Some in Hgen as [Hfresh _]. by rewrite Hn in Hfresh.
Qed.

(** A free first name is returned whatever the fuel. *)
Lemma generate_unique_filename_free (fuel : nat) (B ext : str) (names : gset str) :
  ([underscore] ++ B ++ ext) ∉ names →
  generate_unique_filename fuel B ext names = Some ([underscore] ++ B ++ ext).
Proof.
  intros Hfree. unfold generate_unique_filename.
  destruct fuel; simpl; by case_bool_decide.
Qed.

End ProcessingMore.

(** X9.  One call of [process_image], in any world and with any fuel, only
    appends to the log, and it changes the registry exactly when the file
    system performed the rename: either the registry and the renames are
    as before, or the call returned, one rename of the file to a name that
    was not in the registry was performed in the file's directory, and
    exactly that name entered the registry. *)
Theorem process_image_registry_follows_rename `{UnicodeData} (w : World) (fuel : nat)
    (f : ImageFile) (st : State) :
  let r := (process_image w fuel f st).1 in
  let st' := (process_image w fuel f st).2 in
  (∃ l, log st' = log st ++ l) ∧
  ((existing_names st' = existing_names st ∧ renamed st' = renamed st) ∨
   (∃ n, r = Returns tt ∧
         (n ∉ existing_names st) ∧
         Path_rename w (path f) (truediv (parent (path f)) n) = inr tt ∧
         existing_names st' = existing_names st ∪ {[ n ]} ∧
         renamed st' = renamed st ++ [(path f, truediv (parent (path f)) n)])).
Proof.
  intros r st'. apply (process_image_step w fuel f st st' r).
  unfold r, st'. by destruct (process_image w fuel f st).
Qed.

(** X10.  An exception that is not an instance of [Exception], raised
    while the image is opened or read, is not caught: it leaves
    [extract_text_from_image] and [process_image], nothing is logged, and
    the registry and the file system are as before. *)
Theorem process_image_propagates_non_errors `{UnicodeData} (w : World) (fuel : nat)
    (f : ImageFile) (st : State) (e : exn) :
  ocr_outcome w (path f) = inl e →
  is_Exception e = false →
  extract_text_from_image w (path f) st = (Raises e, st) ∧
  process_image w fuel f st = (Raises e, st).
Proof.
  intros Hocr He.
  destruct (process_image_extract_cases w fuel f st)
    as [(e' & Hocr' & _ & Hex & Hrun)|(text & st1 & l & Hex & _)].
  - rewrite Hocr in Hocr'. injection Hocr' as <-. done.
  - rewrite extract_text_from_image_eq, Hocr, He in Hex. done.
Qed.

Lemma process_image_propagates_non_errors_witness :
  let f := {| path := of_str (py "memes/photo.png");
              original_name := py "photo";
              extension := py ".png" |} in
  let e := mkExn false (py "KeyboardInterrupt") in
  ocr_outcome interrupted_world (path f) = inl e ∧
  is_Exception e = false ∧
  @extract_text_from_image ascii_data interrupted_world (path f) two_names
  = (Raises e, two_names) ∧
  @process_image ascii_data interrupted_world 3 f two_names = (Raises e, two_names).
Proof.
  intros f e. split; [reflexivity|]. split; [reflexivity|].
  apply (@process_image_propagates_non_errors ascii_data interrupted_world 3 f two_names e
           eq_refl eq_refl).
Defined.

(** X11.  When the OCR engine reads a text that is not blank, the name
    [_] + sanitized text + extension is not in the registry and the rename
    succeeds, [process_image] renames the file to that name in its
    directory, adds the name to the registry and logs the rename.  The text
    is sanitized after it is stripped, with the budget
    [MAX_FILENAME_LENGTH - len(extension) - 2]. *)
Theorem process_image_text_name `{UnicodeData} (w : World) (fuel : nat)
    (f : ImageFile) (st : State) (img : Image w) (ocr_text : str) :
  let new_name :=
    [underscore]
      ++ clean_text_for_filename (PyStr.strip ocr_text)
           (MAX_FILENAME_LENGTH - len (extension f) - 2)
      ++ extension f in
  let new_path := truediv (parent (path f)) new_name in
  Image_open w (path f) = inr img →
  image_to_string w img = inr ocr_text →
  PyStr.strip ocr_text ≠ [] →
  new_name ∉ existing_names st →
  Path_rename w (path f) new_path = inr tt →
  process_image w fuel f st
  = (Returns tt,
     {| existing_names := existing_names st ∪ {[ new_name ]};
        log := log st ++ [InfoRenamed (original_name f) new_name];
        renamed := renamed st ++ [(path f, new_path)] |}).
Proof.
  intros new_name new_path Hopen Hocr Hstrip Hfree Hren.
  assert (Hex : extract_text_from_image w (path f) st
                = (Returns (Some (PyStr.strip ocr_text)), st)).
  { rewrite extract_text_from_image_eq. unfold ocr_outcome. rewrite Hopen, Hocr.
    by destruct ocr_text. }
  rewrite (process_image_eq w fuel f st st _ Hex).
  assert (Hbase : chosen_base_name (Some (PyStr.strip ocr_text)) (existing_names st)
                    (extension f)
                  = clean_text_for_filename (PyStr.strip ocr_text)
                      (MAX_FILENAME_LENGTH - len (extension f) - 2)).
  { unfold chosen_base_name. simpl. by destruct (PyStr.strip ocr_text). }
  rewrite Hbase, generate_unique_filename_free by exact Hfree.
  fold new_name. simpl. fold new_path. by rewrite Hren.
Qed.

Lemma process_image_text_name_witness :
  let w := reading_world (py "  Hello World!
") true in
  let f := {| path := of_str (py "memes/photo.png");
              original_name := py "photo";
              extension := py ".png" |} in
  let new_name :=
    [underscore]
      ++ @clean_text_for_filename ascii_data
           (@PyStr.strip ascii_data (py "  Hello World!
"))
           (MAX_FILENAME_LENGTH - len (extension f) - 2)
      ++ extension f in
  let new_path := truediv (parent (path f)) new_name in
  new_name = py "_Hello_World.png" ∧
  Image_open w (path f) = inr tt ∧
  image_to_string w tt = inr (py "  Hello World!
") ∧
  @PyStr.strip ascii_data (py "  Hello World!
") ≠ [] ∧
  (new_name ∉ existing_names two_names) ∧
  Path_rename w (path f) new_path = inr tt ∧
  @process_image ascii_data w 0 f two_names
  = (Returns tt,
     {| existing_names := existing_names two_names ∪ {[ new_name ]};
        log := log two_names ++ [InfoRenamed (original_name f) new_name];
        renamed := renamed two_names ++ [(path f, new_path)] |}).
Proof.
  intros w f new_name new_path.
  assert (Hstrip : @PyStr.strip ascii_data (py "  Hello World!
") ≠ []) by (vm_compute; discriminate).
  assert (Hfree : new_name ∉ existing_names two_names).
  { apply (bool_decide_unpack _). vm_compute. exact I. }
  split; [vm_compute; reflexivity|]. split; [reflexivity|]. split; [reflexivity|].
  split; [exact Hstrip|]. split; [exact Hfree|]. split; [reflexivity|].
  apply (@process_image_text_name ascii_data w 0 f two_names tt _
           eq_refl eq_refl Hstrip Hfree eq_refl).
Defined.

(** ** Processing the files one after another *)

Section ProcessImagesFacts.
Context `{UnicodeData}.
Variable w : World.



End ProcessImagesFacts.




(** X14.  A file whose image cannot be opened or read, because of an
    error, is not skipped: the error is logged and [process_image] goes on
    as for a file without text, with the base name [meme_<N>], where [N] is
    the size of the registry; when the rename succeeds the file is
    renamed. *)
Theorem process_image_ocr_error_fallback `{UnicodeData} (w : World) (fuel : nat)
    (f : ImageFile) (st : State) (e : exn) :
  ocr_outcome w (path f) = inl e →
  is_Exception e = true →
  (size (existing_names st) < fuel)%nat →
  ∃ new_name,
    generate_unique_filename fuel
      (py "meme_" ++ PyStr.str_of_int (N.of_nat (size (existing_names st))))
      (extension f) (existing_names st) = Some new_name ∧
    process_image w fuel f st =
      (let new_path := truediv (parent (path f)) new_name in
       let st1 := log_append st (ErrorExtracting (path f) e) in
       match Path_rename w (path f) new_path with
       | inl e' =>
           if is_Exception e' then (Returns tt, log_append st1 (ErrorProcessing (path f) e'))
           else (Raises e', st1)
       | inr _ =>
           (Returns tt,
            {| existing_names := existing_names st ∪ {[ new_name ]};
               log := log st1 ++ [InfoRenamed (original_name f) new_name];
               renamed := renamed st ++ [(path f, new_path)] |})
       end).
Proof.
  intros Hocr He Hfuel.
  assert (Hex : extract_text_from_image w (path f) st
                = (Returns None, log_append st (ErrorExtracting (path f) e))).
  { by rewrite extract_text_from_image_eq, Hocr, He. }
  destruct (generate_unique_filename_returns
              (py "meme_" ++ PyStr.str_of_int (N.of_nat (size (existing_names st))))
              (extension f) (existing_names st) fuel Hfuel) as (new_name & Hgen & _).
  exists new_name. split; [done|].
  rewrite (process_image_eq w fuel f st _ _ Hex).
  unfold chosen_base_name. simpl not_text. cbv iota.
  cbn [existing_names log_append]. by rewrite Hgen.
Qed.

Lemma process_image_ocr_error_fallback_witness :
  let f := {| path := of_str (py "memes/photo.png");
              original_name := py "photo";
              extension := py ".png" |} in
  let e := mkExn true (py "cannot identify image file") in
  let st1 := log_append two_names (ErrorExtracting (path f) e) in
  ocr_outcome unreadable_world (path f) = inl e ∧
  is_Exception e = true ∧
  (size (existing_names two_names) < 3)%nat ∧
  @process_image ascii_data unreadable_world 3 f two_names
  = (Returns tt,
     {| existing_names := existing_names two_names ∪ {[ py "_meme_2.png" ]};
        log := log st1 ++ [InfoRenamed (py "photo") (py "_meme_2.png")];
        renamed := [(path f, of_str (py "memes/_meme_2.png"))] |}) ∧
  ∃ new_name,
    generate_unique_filename 3
      (py "meme_" ++ PyStr.str_of_int (N.of_nat (size (existing_names two_names))))
      (extension f) (existing_names two_names) = Some new_name ∧
    @process_image ascii_data unreadable_world 3 f two_names =
      (let new_path := truediv (parent (path f)) new_name in
       match Path_rename unreadable_world (path f) new_path with
       | inl e' =>
           if is_Exception e' then (Returns tt, log_append st1 (ErrorProcessing (path f) e'))
           else (Raises e', st1)
       | inr _ =>
           (Returns tt,
            {| existing_names := existing_names two_names ∪ {[ new_name ]};
               log := log st1 ++ [InfoRenamed (original_name f) new_name];
               renamed := renamed two_names ++ [(path f, new_path)] |})
       end).
Proof.
  intros f e st1.
  assert (Hfuel : (size (existing_names two_names) < 3)%nat) by (vm_compute; lia).
  split; [reflexivity|]. split; [reflexivity|]. split; [exact Hfuel|].
  split; [vm_compute; reflexivity|].
  apply (@process_image_ocr_error_fallback ascii_data unreadable_world 3 f two_names e
           eq_refl eq_refl Hfuel).
Defined.

(** X15.  The budget [process_image] gives the sanitizer reserves room for
    the sentinel and the extension: when the extension has at most
    [MAX_FILENAME_LENGTH - 2] characters, the first name the allocator
    tries for a sanitized text, [_] + sanitized text + extension, has fewer
    than [MAX_FILENAME_LENGTH] characters. *)
Theorem sanitized_name_fits `{UnicodeData} (T ext : str) :
  len ext <= MAX_FILENAME_LENGTH - 2 →
  len ([underscore]
         ++ clean_text_for_filename T (MAX_FILENAME_LENGTH - len ext - 2)
         ++ ext)
  < MAX_FILENAME_LENGTH.
Proof.
  intros Hext. rewrite !len_app.
  pose proof (clean_text_len T (MAX_FILENAME_LENGTH - len ext - 2) ltac:(lia)).
  change (len [underscore]) with 1. lia.
Qed.

Lemma sanitized_name_fits_witness :
  len (py ".png") <= MAX_FILENAME_LENGTH - 2 ∧
  len ([underscore]
         ++ @clean_text_for_filename ascii_data (py "Hello World!")
              (MAX_FILENAME_LENGTH - len (py ".png") - 2)
         ++ py ".png")
  < MAX_FILENAME_LENGTH.
Proof.
  assert (Hext : len (py ".png") <= MAX_FILENAME_LENGTH - 2) by (vm_compute; discriminate).
  split; [exact Hext|].
  apply (@sanitized_name_fits ascii_data (py "Hello World!") (py ".png") Hext).
Defined.
